(** * Permission review reminder: a shallow embedding of [main.py]

    The program loads a JSON configuration, validates it, and either sends one
    test e-mail or registers one recurring job per (permission, reviewer) pair
    and polls the job table for ever.  The functions of [main.py] are embedded
    below under their own names; the command line is taken as [setup_argparse]
    has parsed it (the record [Args]).  What the program gets from outside its
    own file
    (the file system and the JSON parser, Python's [eval] together with the
    [schedule] package, the SMTP transport, [str()] of values that are no
    strings) is gathered in the record [Runtime], over which the embedding is
    parametric. *)

From Stdlib Require Import String Ascii List ZArith Lia Bool Arith.
Import ListNotations.
Open Scope string_scope.
Open Scope list_scope.
Set Warnings "-register-all".

(** ** Values

    A configuration is what [json.load] returns: [None], booleans, integers,
    floats, strings, lists and dictionaries with string keys. *)

(** A Python float, as far as [int()] tells floats apart: a finite float is
    the rational [num / den]. *)
Inductive pyfloat :=
| FFinite (num : Z) (den : positive)
| FInf (negative : bool)
| FNaN.

Inductive json :=
| JNull
| JBool (b : bool)
| JInt (z : Z)
| JFloat (f : pyfloat)
| JStr (s : string)
| JList (l : list json)
| JDict (d : list (string * json)).

(** A dictionary keeps its items in insertion order; a key is looked up from
    the front. *)
Definition pydict := list (string * json).

Fixpoint dict_get (k : string) (d : pydict) : option json :=
  match d with
  | [] => None
  | (k', v) :: rest => if String.eqb k k' then Some v else dict_get k rest
  end.

(** [key in d] *)
Definition dict_mem (k : string) (d : pydict) : bool :=
  match dict_get k d with Some _ => true | None => false end.

(** ** Exceptions *)

Inductive Exn :=
| FileNotFoundError
| JSONDecodeError
| ValueError (msg : string)
| TypeError (msg : string)
| KeyError (key : string)
| NameError (name : string)
| OverflowError (msg : string)
| SMTPException (msg : string)
| OSError (msg : string)
| OtherException (cls msg : string)
| SystemExit (code : Z)
| KeyboardInterrupt.

(** [isinstance(e, Exception)]: everything but the two classes that derive
    from [BaseException] alone. *)
Definition is_Exception (e : Exn) : bool :=
  match e with
  | SystemExit _ | KeyboardInterrupt => false
  | _ => true
  end.

(** [isinstance(e, ValueError)]; [json.JSONDecodeError] is a subclass. *)
Definition is_ValueError (e : Exn) : bool :=
  match e with
  | ValueError _ | JSONDecodeError => true
  | _ => false
  end.

Definition is_SMTPException (e : Exn) : bool :=
  match e with SMTPException _ => true | _ => false end.

Definition is_FileNotFoundError (e : Exn) : bool :=
  match e with FileNotFoundError => true | _ => false end.

Definition is_JSONDecodeError (e : Exn) : bool :=
  match e with JSONDecodeError => true | _ => false end.

(** The outcome of code that may raise. *)
Inductive Result (A : Type) :=
| Ok (a : A)
| Raise (e : Exn).
Arguments Ok {A} a.
Arguments Raise {A} e.

Definition rbind {A B} (c : Result A) (k : A -> Result B) : Result B :=
  match c with
  | Ok a => k a
  | Raise e => Raise e
  end.

Notation "'let*' x ':=' c 'in' k" := (rbind c (fun x => k))
  (at level 10, x pattern, c at level 100, k at level 200).

(** [d[k]] on a dictionary *)
Definition subscript (d : pydict) (k : string) : Result json :=
  match dict_get k d with
  | Some v => Ok v
  | None => Raise (KeyError k)
  end.

(** [v[k]] with a string [k], on any value *)
Definition subscript_value (v : json) (k : string) : Result json :=
  match v with
  | JDict d => subscript d k
  | JList _ => Raise (TypeError "list indices must be integers or slices, not str")
  | JStr _ => Raise (TypeError "string indices must be integers, not 'str'")
  | _ => Raise (TypeError "object is not subscriptable")
  end.

(** [needle in hay] on two strings *)
Fixpoint str_in (needle hay : string) : bool :=
  String.prefix needle hay
  || match hay with
     | EmptyString => false
     | String _ rest => str_in needle rest
     end.

Definition is_list (v : json) : bool := match v with JList _ => true | _ => false end.
Definition is_dict (v : json) : bool := match v with JDict _ => true | _ => false end.
Definition is_str (v : json) : bool := match v with JStr _ => true | _ => false end.

(** [for x in v]: the items a [for] loop visits *)
Fixpoint chars_of (s : string) : list json :=
  match s with
  | EmptyString => []
  | String c rest => JStr (String c EmptyString) :: chars_of rest
  end.

Definition py_iter (v : json) : Result (list json) :=
  match v with
  | JList l => Ok l
  | JDict d => Ok (map (fun kv => JStr (fst kv)) d)
  | JStr s => Ok (chars_of s)
  | _ => Raise (TypeError "object is not iterable")
  end.

(** ** [int()]

    [int(x)] of a string reads, in base ten, optional blanks, an optional sign,
    digits that single underscores may separate, and optional blanks.  Only
    ASCII text is read here (Python also takes the decimal digits and blanks of
    other scripts). *)

Definition is_blank (c : ascii) : bool :=
  let n := nat_of_ascii c in
  ((9 <=? n)%nat && (n <=? 13)%nat) || (n =? 32)%nat.

Definition digit_value (c : ascii) : option Z :=
  let n := nat_of_ascii c in
  if ((48 <=? n)%nat && (n <=? 57)%nat) then Some (Z.of_nat (n - 48)) else None.

Fixpoint skip_blanks (l : list ascii) : list ascii :=
  match l with
  | c :: rest => if is_blank c then skip_blanks rest else l
  | [] => []
  end.

(** CPython's default [sys.int_max_str_digits]. *)
Definition int_max_str_digits : nat := 4300.

Fixpoint scan_digits (l : list ascii) (acc : Z) (prev_underscore : bool) (ndigits : nat)
  : option (Z * list ascii) :=
  let finish rest :=
    if prev_underscore || (ndigits =? 0)%nat || (int_max_str_digits <? ndigits)%nat
    then None else Some (acc, rest) in
  match l with
  | [] => finish []
  | c :: rest =>
      match digit_value c with
      | Some d => scan_digits rest (10 * acc + d)%Z false (S ndigits)
      | None =>
          if Ascii.eqb c "_"%char
          then if prev_underscore || (ndigits =? 0)%nat then None
               else scan_digits rest acc true ndigits
          else finish l
      end
  end.

Definition int_of_string (s : string) : option Z :=
  let l := skip_blanks (list_ascii_of_string s) in
  let '(negative, l) :=
    match l with
    | c :: rest =>
        if Ascii.eqb c "-"%char then (true, rest)
        else if Ascii.eqb c "+"%char then (false, rest)
        else (false, l)
    | [] => (false, l)
    end in
  match scan_digits l 0%Z false 0%nat with
  | Some (n, rest) =>
      match skip_blanks rest with
      | [] => Some (if negative then (- n)%Z else n)
      | _ => None
      end
  | None => None
  end.

Definition py_int (v : json) : Result Z :=
  match v with
  | JInt z => Ok z
  | JBool b => Ok (if b then 1%Z else 0%Z)
  | JFloat (FFinite n d) => Ok (Z.quot n (Zpos d))
  | JFloat (FInf _) => Raise (OverflowError "cannot convert float infinity to integer")
  | JFloat FNaN => Raise (ValueError "cannot convert float NaN to integer")
  | JStr s =>
      match int_of_string s with
      | Some z => Ok z
      | None => Raise (ValueError "invalid literal for int() with base 10")
      end
  | JNull =>
      Raise (TypeError "int() argument must be a string, a bytes-like object or a real number, not 'NoneType'")
  | JList _ =>
      Raise (TypeError "int() argument must be a string, a bytes-like object or a real number, not 'list'")
  | JDict _ =>
      Raise (TypeError "int() argument must be a string, a bytes-like object or a real number, not 'dict'")
  end.

(** ** [validate_config]

    The parameter is annotated [Dict]: the document is a dictionary.  The six
    blocks of the function body are named after the rule each one checks.
    What the function does on a value that is no dictionary, which
    [json.load] can return as well, is [validate_document] below. *)

Definition required_keys : list string :=
  ["permissions_to_review"; "reviewers"; "smtp_server"; "smtp_port"; "sender_email"].
Definition required_permission_keys : list string :=
  ["description"; "permission_details"; "review_schedule"].
Definition required_reviewer_keys : list string := ["name"; "email"].

(** [for key in keys: if key not in d: raise ValueError(prefix + key)] *)
Fixpoint require_keys (prefix : string) (keys : list string) (d : pydict) : Result unit :=
  match keys with
  | [] => Ok tt
  | key :: rest =>
      if dict_mem key d then require_keys prefix rest d
      else Raise (ValueError (prefix ++ key))
  end.

(** [for x in l: body(x)] in the [Result] monad *)
Fixpoint rfor {A} (l : list A) (body : A -> Result unit) : Result unit :=
  match l with
  | [] => Ok tt
  | x :: rest => let* _ := body x in rfor rest body
  end.

Definition port_message : string := "smtp_port must be an integer between 1 and 65535".

Definition check_required_keys (config : pydict) : Result unit :=
  require_keys "Missing required configuration key: " required_keys config.

Definition check_permission (permission : json) : Result unit :=
  match permission with
  | JDict p =>
      let* _ := require_keys "Missing required key in permission: " required_permission_keys p in
      let* details := subscript p "permission_details" in
      if negb (is_dict details) then Raise (ValueError "permission_details must be a dictionary")
      else
        let* schedule := subscript p "review_schedule" in
        if negb (is_str schedule) then Raise (ValueError "review_schedule must be a string")
        else Ok tt
  | _ => Raise (ValueError "Each permission entry in permissions_to_review must be a dictionary.")
  end.

Definition check_permissions (config : pydict) : Result unit :=
  let* v := subscript config "permissions_to_review" in
  if negb (is_list v) then Raise (ValueError "permissions_to_review must be a list of dictionaries.")
  else
    let* v := subscript config "permissions_to_review" in
    let* items := py_iter v in
    rfor items check_permission.

(** [not isinstance(v, str) or "@" not in v] *)
Definition not_an_address (v : json) : bool :=
  match v with
  | JStr s => negb (str_in "@" s)
  | _ => true
  end.

Definition check_reviewer (reviewer : json) : Result unit :=
  match reviewer with
  | JDict r =>
      let* _ := require_keys "Missing required key in reviewer: " required_reviewer_keys r in
      let* email := subscript r "email" in
      if not_an_address email then Raise (ValueError "Reviewer email must be a valid email address.")
      else Ok tt
  | _ => Raise (ValueError "Each reviewer entry in reviewers must be a dictionary.")
  end.

Definition check_reviewers (config : pydict) : Result unit :=
  let* v := subscript config "reviewers" in
  if negb (is_list v) then Raise (ValueError "reviewers must be a list of dictionaries.")
  else
    let* v := subscript config "reviewers" in
    let* items := py_iter v in
    rfor items check_reviewer.

Definition check_smtp_server (config : pydict) : Result unit :=
  let* v := subscript config "smtp_server" in
  if negb (is_str v) then Raise (ValueError "smtp_server must be a string.") else Ok tt.

(** The [try] block and its [except ValueError] clause. *)
Definition check_smtp_port (config : pydict) : Result unit :=
  let attempt :=
    let* v := subscript config "smtp_port" in
    let* port := py_int v in
    if negb ((0 <? port)%Z && (port <? 65535)%Z) then Raise (ValueError port_message)
    else Ok tt in
  match attempt with
  | Ok _ => Ok tt
  | Raise e => if is_ValueError e then Raise (ValueError port_message) else Raise e
  end.

Definition check_sender_email (config : pydict) : Result unit :=
  let* v := subscript config "sender_email" in
  if not_an_address v then Raise (ValueError "Sender email must be a valid email address.")
  else Ok tt.

Definition validate_config (config : pydict) : Result unit :=
  let* _ := check_required_keys config in
  let* _ := check_permissions config in
  let* _ := check_reviewers config in
  let* _ := check_smtp_server config in
  let* _ := check_smtp_port config in
  check_sender_email config.


(** *** [validate_config] on whatever [json.load] returned *)

Definition type_name (v : json) : string :=
  match v with
  | JNull => "NoneType"
  | JBool _ => "bool"
  | JInt _ => "int"
  | JFloat _ => "float"
  | JStr _ => "str"
  | JList _ => "list"
  | JDict _ => "dict"
  end.

(** [key in v] with a string [key]: a key of a dictionary, an element of a
    list, a substring of a string.  [None], booleans and numbers are no
    containers. *)
Definition py_in (key : string) (v : json) : Result bool :=
  match v with
  | JDict d => Ok (dict_mem key d)
  | JList l =>
      Ok (existsb (fun x => match x with JStr s => String.eqb key s | _ => false end) l)
  | JStr s => Ok (str_in key s)
  | _ => Raise (TypeError ("argument of type '" ++ type_name v ++ "' is not iterable"))
  end.

(** [for key in required_keys: if key not in config: raise ValueError(...)] *)
Definition check_required_keys_in (config : json) : Result unit :=
  rfor required_keys (fun key =>
    let* present := py_in key config in
    if negb present then Raise (ValueError ("Missing required configuration key: " ++ key))
    else Ok tt).

(** The annotation [Dict] of the parameter is not enforced, and [json.load]
    returns any JSON value.  The loop over the required keys runs on every
    value that [in] takes; the statement after it subscripts [config] with a
    string, which only a dictionary takes, so that on any other value the
    statements after that one are not reached. *)
Definition validate_document (config : json) : Result unit :=
  let* _ := check_required_keys_in config in
  match config with
  | JDict d =>
      let* _ := check_permissions d in
      let* _ := check_reviewers d in
      let* _ := check_smtp_server d in
      let* _ := check_smtp_port d in
      check_sender_email d
  | _ =>
      let* _ := subscript_value config "permissions_to_review" in
      Ok tt
  end.

(** ** The world the program acts on *)

(** Text built by an f-string: its literal parts and the values and exceptions
    it interpolates, in order. *)
Inductive piece :=
| Lit (s : string)
| Val (v : json)
| Exc (e : Exn).

Definition text := list piece.

Inductive Level := INFO | ERROR | ERROR_WITH_TRACEBACK.

(** The recurrence rule a [schedule] job carries. *)
Inductive TimeUnit :=
| Seconds | Minutes | Hours | Days | Weeks
| Weekday (day : nat).

Record Trigger := {
  t_interval : Z;
  t_unit : TimeUnit;
  t_at : option (nat * nat * nat)
}.

(** What a job of the table calls.  [JobClosure frame] is a function object
    [job]: the closure made by [def job()] in the activation [frame] of
    [schedule_reviews]; it holds no values of its own, its free variables are
    the cells of that activation.  [OtherFunction outcome] is a callable that
    an evaluated text supplied itself (a lambda, a builtin): called, it raises
    the exception given, or returns. *)
Inductive Callable :=
| JobClosure (frame : nat)
| OtherFunction (outcome : option Exn).

(** The cells of one activation of [schedule_reviews] that [job] refers to. *)
Record Frame := {
  f_config : pydict;
  f_permission : option json;
  f_reviewer : option json
}.

(** An entry of the job table of the [schedule] package. *)
Record Job := {
  job_trigger : Trigger;
  job_next_run : Z;
  job_func : Callable
}.

(** One use of the SMTP transport: [smtplib.SMTP(host, port)] and [sendmail]. *)
Record Mail := {
  mail_host : json;
  mail_port : json;
  mail_from : json;
  mail_to : json;
  mail_subject : text;
  mail_body : text
}.

Record World := {
  w_frames : list Frame;                 (* activations of schedule_reviews *)
  w_jobs : list Job;                     (* the job table of schedule *)
  w_evaluated : list string;             (* the texts handed to eval, oldest first *)
  w_sent : list (Mail * option Exn);     (* uses of the transport, with what each raised *)
  w_log : list (Level * text);
  w_console : list text;
  w_now : Z;                             (* the clock, in seconds *)
  w_ticks : nat                          (* completed rounds of the polling loop *)
}.

Definition empty_world : World :=
  {| w_frames := []; w_jobs := []; w_evaluated := []; w_sent := [];
     w_log := []; w_console := []; w_now := 0; w_ticks := 0 |}.

Definition set_frames (fs : list Frame) (w : World) : World :=
  {| w_frames := fs; w_jobs := w_jobs w; w_evaluated := w_evaluated w; w_sent := w_sent w;
     w_log := w_log w; w_console := w_console w; w_now := w_now w; w_ticks := w_ticks w |}.

Definition set_jobs (js : list Job) (w : World) : World :=
  {| w_frames := w_frames w; w_jobs := js; w_evaluated := w_evaluated w; w_sent := w_sent w;
     w_log := w_log w; w_console := w_console w; w_now := w_now w; w_ticks := w_ticks w |}.

Definition set_evaluated (es : list string) (w : World) : World :=
  {| w_frames := w_frames w; w_jobs := w_jobs w; w_evaluated := es; w_sent := w_sent w;
     w_log := w_log w; w_console := w_console w; w_now := w_now w; w_ticks := w_ticks w |}.

Definition set_sent (ms : list (Mail * option Exn)) (w : World) : World :=
  {| w_frames := w_frames w; w_jobs := w_jobs w; w_evaluated := w_evaluated w; w_sent := ms;
     w_log := w_log w; w_console := w_console w; w_now := w_now w; w_ticks := w_ticks w |}.

Definition set_log (l : list (Level * text)) (w : World) : World :=
  {| w_frames := w_frames w; w_jobs := w_jobs w; w_evaluated := w_evaluated w; w_sent := w_sent w;
     w_log := l; w_console := w_console w; w_now := w_now w; w_ticks := w_ticks w |}.

Definition set_console (c : list text) (w : World) : World :=
  {| w_frames := w_frames w; w_jobs := w_jobs w; w_evaluated := w_evaluated w; w_sent := w_sent w;
     w_log := w_log w; w_console := c; w_now := w_now w; w_ticks := w_ticks w |}.

Definition set_clock (t : Z) (n : nat) (w : World) : World :=
  {| w_frames := w_frames w; w_jobs := w_jobs w; w_evaluated := w_evaluated w; w_sent := w_sent w;
     w_log := w_log w; w_console := w_console w; w_now := t; w_ticks := n |}.

(** What the program is given from outside [main.py].

    The evaluator is taken to return or to raise, and to change nothing of
    the program but the job table: a text whose evaluation does not end, or
    that rebinds or changes the configuration, the lists the loops run over
    or anything else, is outside the embedding.  The file that is read holds
    a JSON object. *)
Class Runtime := {
  (** [open(path)] followed by [json.load]: the document, or what was raised. *)
  read_json : string -> Result pydict;
  (** [str(v)] of a value that is not a string. *)
  repr : json -> string;
  (** [eval(text)] in the scope of [schedule_reviews], where the name [job] is
      bound to the closure given: the job table before, the job table after,
      and the exception raised, if any. *)
  eval_expr : string -> Callable -> Z -> list Job -> list Job * option Exn;
  (** The next time a job with this rule is due, from the current time. *)
  next_run : Trigger -> Z -> Z;
  (** The outcome of the n-th use of the transport: [None] when the message
      was handed over, the exception raised otherwise. *)
  smtp : nat -> Mail -> option Exn
}.

(** ** Stateful code: state passing with exceptions *)

Definition M (A : Type) : Type := World -> Result A * World.

Definition ret {A} (a : A) : M A := fun w => (Ok a, w).
Definition raise {A} (e : Exn) : M A := fun w => (Raise e, w).
Definition lift {A} (r : Result A) : M A := fun w => (r, w).

Definition bind {A B} (c : M A) (k : A -> M B) : M B :=
  fun w =>
    match c w with
    | (Ok a, w') => k a w'
    | (Raise e, w') => (Raise e, w')
    end.

Notation "x <- c ;; k" := (bind c (fun x => k))
  (at level 100, c at next level, right associativity).
Notation "c ;; k" := (bind c (fun _ => k))
  (at level 100, right associativity).

(** [try: body  except <class> as e: handler] *)
Definition try_except {A} (body : M A) (caught : Exn -> bool) (handler : Exn -> M A) : M A :=
  fun w =>
    match body w with
    | (Raise e, w') => if caught e then handler e w' else (Raise e, w')
    | done => done
    end.

(** [for x in l: body(x)] *)
Fixpoint mfor {A} (l : list A) (body : A -> M unit) : M unit :=
  match l with
  | [] => ret tt
  | x :: rest => body x ;; mfor rest body
  end.

Definition logging (lvl : Level) (t : text) : M unit :=
  fun w => (Ok tt, set_log (w_log w ++ [(lvl, t)]) w).

Definition print (t : text) : M unit :=
  fun w => (Ok tt, set_console (w_console w ++ [t]) w).

Definition nl : string := String (ascii_of_nat 10) EmptyString.

(** ** The functions of [main.py] *)

Section Program.
Context {RT : Runtime}.

(** [f"{v}"]: a string is inserted as it is, any other value through [str()]. *)
Definition py_str (v : json) : string :=
  match v with
  | JStr s => s
  | _ => repr v
  end.

(** [smtplib.SMTP(host, port)] and [server.sendmail(...)], the connection
    closed on every path.  Building the message ([MIMEText(body)], the three
    header assignments, [msg.as_string()]) is not modelled apart: a call of
    [send_email] is one record, and the strings of a message are taken to be
    such that the message can be built (no lone surrogate in the body, no
    line break in a header). *)
Definition transmit (m : Mail) : M unit :=
  fun w =>
    let outcome := smtp (length (w_sent w)) m in
    let w' := set_sent (w_sent w ++ [(m, outcome)]) w in
    match outcome with
    | None => (Ok tt, w')
    | Some e => (Raise e, w')
    end.

Definition send_email (subject body : text) (recipient smtp_server smtp_port sender_email : json)
  : M unit :=
  try_except
    (transmit {| mail_host := smtp_server; mail_port := smtp_port;
                 mail_from := sender_email; mail_to := recipient;
                 mail_subject := subject; mail_body := body |} ;;
     logging INFO [Lit "Email sent successfully to "; Val recipient])
    is_SMTPException
    (fun e =>
       logging ERROR [Lit "Error sending email to "; Val recipient; Lit ": "; Exc e] ;;
       raise e).

Definition review_subject (description : json) : text :=
  [Lit "Permission Review Required: "; Val description].

Definition review_body (name description details : json) : text :=
  [Lit (nl ++ "    Dear "); Val name;
   Lit ("," ++ nl ++ nl ++ "    A review is required for the following permission:"
        ++ nl ++ nl ++ "    Description: "); Val description;
   Lit (nl ++ "    Details: "); Val details;
   Lit (nl ++ nl ++ "    Please review this permission and ensure it is still appropriate.  "
        ++ nl ++ nl ++ "    [Link to review form - Placeholder]"
        ++ nl ++ nl ++ "    Thank you," ++ nl ++ "    The Permission Review System"
        ++ nl ++ "    ")].

Definition create_review_task (permission reviewer smtp_server smtp_port sender_email : json)
  : M unit :=
  description <- lift (subscript_value permission "description") ;;
  let subject := review_subject description in
  name <- lift (subscript_value reviewer "name") ;;
  description <- lift (subscript_value permission "description") ;;
  details <- lift (subscript_value permission "permission_details") ;;
  let body := review_body name description details in
  try_except
    (email <- lift (subscript_value reviewer "email") ;;
     send_email subject body email smtp_server smtp_port sender_email)
    is_Exception
    (fun e =>
       description <- lift (subscript_value permission "description") ;;
       email <- lift (subscript_value reviewer "email") ;;
       logging ERROR [Lit "Failed to send email for "; Val description;
                      Lit " review to "; Val email; Lit ": "; Exc e]).

(** Reading a free variable of [job] from its cell. *)
Definition read_cell (name : string) (cell : option json) : M json :=
  match cell with
  | Some v => ret v
  | None => raise (NameError name)
  end.

(** The body of [job]: every free variable is read from the activation's
    cells when the job is called. *)
Definition job (frame : nat) : M unit :=
  fun w =>
    match nth_error (w_frames w) frame with
    | None => (Raise (NameError "job"), w)
    | Some cells =>
        (permission <- read_cell "permission" (f_permission cells) ;;
         reviewer <- read_cell "reviewer" (f_reviewer cells) ;;
         smtp_server <- lift (subscript (f_config cells) "smtp_server") ;;
         smtp_port <- lift (subscript (f_config cells) "smtp_port") ;;
         sender_email <- lift (subscript (f_config cells) "sender_email") ;;
         create_review_task permission reviewer smtp_server smtp_port sender_email) w
    end.

Definition call (f : Callable) : M unit :=
  match f with
  | JobClosure frame => job frame
  | OtherFunction (Some e) => raise e
  | OtherFunction None => ret tt
  end.

(** Entering [schedule_reviews]: a fresh activation whose loop variables are
    not bound yet. *)
Definition new_frame (config : pydict) : M nat :=
  fun w =>
    (Ok (length (w_frames w)),
     set_frames (w_frames w ++ [{| f_config := config; f_permission := None;
                                   f_reviewer := None |}]) w).

Fixpoint update_nth {A} (n : nat) (f : A -> A) (l : list A) : list A :=
  match l, n with
  | [], _ => []
  | x :: rest, O => f x :: rest
  | x :: rest, S n' => x :: update_nth n' f rest
  end.

(** The [for] statement assigning its loop variable. *)
Definition bind_permission (v : json) (cells : Frame) : Frame :=
  {| f_config := f_config cells; f_permission := Some v; f_reviewer := f_reviewer cells |}.

Definition bind_reviewer (v : json) (cells : Frame) : Frame :=
  {| f_config := f_config cells; f_permission := f_permission cells; f_reviewer := Some v |}.

Definition assign_permission (frame : nat) (v : json) : M unit :=
  fun w => (Ok tt, set_frames (update_nth frame (bind_permission v) (w_frames w)) w).

Definition assign_reviewer (frame : nat) (v : json) : M unit :=
  fun w => (Ok tt, set_frames (update_nth frame (bind_reviewer v) (w_frames w)) w).

(** [eval(text)] *)
Definition py_eval (expression : string) (f : Callable) : M unit :=
  fun w =>
    let '(table, outcome) := eval_expr expression f (w_now w) (w_jobs w) in
    let w' := set_jobs table (set_evaluated (w_evaluated w ++ [expression]) w) in
    match outcome with
    | None => (Ok tt, w')
    | Some e => (Raise e, w')
    end.

(** [f"schedule.{schedule_string}.do(job)"] *)
Definition schedule_expression (schedule_string : json) : string :=
  "schedule." ++ py_str schedule_string ++ ".do(job)".

(** The body of the inner loop, after [reviewer] has been assigned. *)
Definition schedule_pair (frame : nat) (permission reviewer : json) : M unit :=
  schedule_string <- lift (subscript_value permission "review_schedule") ;;
  try_except
    (py_eval (schedule_expression schedule_string) (JobClosure frame) ;;
     description <- lift (subscript_value permission "description") ;;
     name <- lift (subscript_value reviewer "name") ;;
     logging INFO [Lit "Scheduled review for "; Val description; Lit " by "; Val name;
                   Lit " with schedule: "; Val schedule_string])
    is_Exception
    (fun e =>
       description <- lift (subscript_value permission "description") ;;
       name <- lift (subscript_value reviewer "name") ;;
       logging ERROR [Lit "Failed to schedule review for "; Val description; Lit " by ";
                      Val name; Lit " with schedule: "; Val schedule_string; Lit ": "; Exc e]).

(** The body of the outer loop, after [permission] has been assigned. *)
Definition schedule_permission (frame : nat) (config : pydict) (permission : json) : M unit :=
  reviewers <- lift (let* v := subscript config "reviewers" in py_iter v) ;;
  mfor reviewers (fun reviewer =>
    assign_reviewer frame reviewer ;;
    schedule_pair frame permission reviewer).

Definition schedule_reviews (config : pydict) : M unit :=
  frame <- new_frame config ;;
  permissions <- lift (let* v := subscript config "permissions_to_review" in py_iter v) ;;
  mfor permissions (fun permission =>
    assign_permission frame permission ;;
    schedule_permission frame config permission).

Definition send_test_email (smtp_server smtp_port sender_email : json) : M unit :=
  let test_recipient := sender_email in
  let subject := [Lit "Test Email from Permission Review Tool"] in
  let body := [Lit "This is a test email to verify that the email settings are configured correctly."] in
  try_except
    (send_email subject body test_recipient smtp_server smtp_port sender_email ;;
     print [Lit "Test email sent successfully. Check your inbox."])
    is_Exception
    (fun e =>
       print [Lit "Failed to send test email: "; Exc e] ;;
       logging ERROR [Lit "Failed to send test email: "; Exc e]).

Definition load_config (config_file : string) : M pydict :=
  match read_json config_file with
  | Ok config =>
      logging INFO [Lit "Configuration loaded from "; Val (JStr config_file)] ;;
      ret config
  | Raise e =>
      if is_FileNotFoundError e then
        logging ERROR [Lit "Configuration file not found: "; Val (JStr config_file)] ;;
        raise e
      else if is_JSONDecodeError e then
        logging ERROR [Lit "Invalid JSON in configuration file: "; Val (JStr config_file);
                       Lit ". Error: "; Exc e] ;;
        raise e
      else raise e
  end.

(** *** The polling loop

    [schedule.run_pending()] runs the jobs that are due, earliest first, and
    lets an exception of a job's function pass to its caller. *)

Definition should_run (t : Z) (j : Job) : bool := (job_next_run j <=? t)%Z.

Fixpoint enumerate_from {A} (n : nat) (l : list A) : list (nat * A) :=
  match l with
  | [] => []
  | x :: rest => (n, x) :: enumerate_from (S n) rest
  end.

Fixpoint insert_job (x : nat * Job) (l : list (nat * Job)) : list (nat * Job) :=
  match l with
  | [] => [x]
  | y :: rest =>
      if (job_next_run (snd x) <=? job_next_run (snd y))%Z then x :: l
      else y :: insert_job x rest
  end.

(** [sorted(...)]: a stable sort on the time each job is due; jobs due at the
    same time keep the order of the table. *)
Definition sort_jobs (l : list (nat * Job)) : list (nat * Job) :=
  fold_right insert_job [] l.

Definition runnable_jobs (w : World) : list (nat * Job) :=
  sort_jobs (filter (fun ij => should_run (w_now w) (snd ij)) (enumerate_from 0 (w_jobs w))).

(** [job.run()]: call the function, then compute when the job is due next. *)
Definition run_job (ij : nat * Job) : M unit :=
  call (job_func (snd ij)) ;;
  fun w =>
    (Ok tt,
     set_jobs (update_nth (fst ij)
                 (fun j => {| job_trigger := job_trigger j;
                              job_next_run := next_run (job_trigger j) (w_now w);
                              job_func := job_func j |}) (w_jobs w)) w).

Definition run_pending : M unit :=
  fun w => mfor (runnable_jobs w) run_job w.

(** [time.sleep(seconds)] *)
Definition sleep (seconds : Z) : M unit :=
  fun w => (Ok tt, set_clock (w_now w + seconds)%Z (S (w_ticks w)) w).

Inductive Progress := Finished | StillPolling.

(** [while True: schedule.run_pending(); time.sleep(60)], cut off after
    [rounds] rounds. *)
Fixpoint poll (rounds : nat) : M Progress :=
  match rounds with
  | O => ret StillPolling
  | S n => run_pending ;; sleep 60 ;; poll n
  end.

Record Args := {
  args_config : string;
  args_test_email : bool
}.

(** How the process stands after [main]: it has exited with a status, it is
    being torn down by an exception no clause of [main] catches, or it is
    still in the polling loop. *)
Inductive Outcome :=
| Exit (status : Z)
| Uncaught (e : Exn)
| Polling.

(** The [try] block of [main]. *)
Definition main_body (rounds : nat) (args : Args) : M Progress :=
  config <- load_config (args_config args) ;;
  lift (validate_config config) ;;
  if args_test_email args then
    smtp_server <- lift (subscript config "smtp_server") ;;
    smtp_port <- lift (subscript config "smtp_port") ;;
    sender_email <- lift (subscript config "sender_email") ;;
    send_test_email smtp_server smtp_port sender_email ;;
    ret Finished
  else
    schedule_reviews config ;;
    poll rounds.

Definition main (rounds : nat) (args : Args) (w : World) : Outcome * World :=
  match main_body rounds args w with
  | (Ok Finished, w') => (Exit 0, w')
  | (Ok StillPolling, w') => (Polling, w')
  | (Raise e, w') =>
      if is_FileNotFoundError e then
        (Exit 1, snd (print [Lit "Error: Configuration file not found: ";
                             Val (JStr (args_config args))] w'))
      else if is_JSONDecodeError e then
        (Exit 1, snd (print [Lit "Error: Invalid JSON in configuration file: ";
                             Val (JStr (args_config args))] w'))
      else if is_ValueError e then
        (Exit 1, snd (print [Lit "Error: Invalid configuration: "; Exc e] w'))
      else if is_Exception e then
        (Exit 1, snd ((print [Lit "An unexpected error occurred: "; Exc e] ;;
                       logging ERROR_WITH_TRACEBACK [Lit "An unexpected error occurred."]) w'))
      else (Uncaught e, w')
  end.

End Program.

(** ** The recurrence grammar and a reference runtime *)

Fixpoint drop_prefix (p s : string) : option string :=
  match p, s with
  | EmptyString, _ => Some s
  | String a p', String b s' => if Ascii.eqb a b then drop_prefix p' s' else None
  | String _ _, EmptyString => None
  end.

Definition drop_suffix (p s : string) : option string :=
  match drop_prefix (string_of_list_ascii (rev (list_ascii_of_string p)))
                    (string_of_list_ascii (rev (list_ascii_of_string s))) with
  | Some r => Some (string_of_list_ascii (rev (list_ascii_of_string r)))
  | None => None
  end.

(** The leading digits of a string, as a number, and what follows them. *)
Fixpoint read_digits (s : string) (acc : Z) (n : nat) : Z * nat * string :=
  match s with
  | EmptyString => (acc, n, s)
  | String c rest =>
      match digit_value c with
      | Some d => read_digits rest (10 * acc + d)%Z (S n)
      | None => (acc, n, s)
      end
  end.

(** The leading lower-case letters of a string, and what follows them. *)
Fixpoint read_word (s : string) : string * string :=
  match s with
  | EmptyString => (EmptyString, s)
  | String c rest =>
      let n := nat_of_ascii c in
      if ((97 <=? n)%nat && (n <=? 122)%nat)
      then let '(word, tail) := read_word rest in (String c word, tail)
      else (EmptyString, s)
  end.

Definition unit_of_word (word : string) : option TimeUnit :=
  if String.eqb word "seconds" then Some Seconds
  else if String.eqb word "minutes" then Some Minutes
  else if String.eqb word "hours" then Some Hours
  else if String.eqb word "days" then Some Days
  else if String.eqb word "weeks" then Some Weeks
  else if String.eqb word "monday" then Some (Weekday 0)
  else if String.eqb word "tuesday" then Some (Weekday 1)
  else if String.eqb word "wednesday" then Some (Weekday 2)
  else if String.eqb word "thursday" then Some (Weekday 3)
  else if String.eqb word "friday" then Some (Weekday 4)
  else if String.eqb word "saturday" then Some (Weekday 5)
  else if String.eqb word "sunday" then Some (Weekday 6)
  else None.

(** Two digits below [bound], and what follows them. *)
Definition read_two_digits (bound : nat) (s : string) : option (nat * string) :=
  match s with
  | String a (String b rest) =>
      match digit_value a, digit_value b with
      | Some x, Some y =>
          let v := Z.to_nat (10 * x + y) in
          if (v <? bound)%nat then Some (v, rest) else None
      | _, _ => None
      end
  | _ => None
  end.

(** [HH:MM] or [HH:MM:SS], and what follows it. *)
Definition read_time (s : string) : option (nat * nat * nat * string) :=
  match read_two_digits 24 s with
  | Some (h, String ":" s1) =>
      match read_two_digits 60 s1 with
      | Some (m, String ":" s2) =>
          match read_two_digits 60 s2 with
          | Some (sec, rest) => Some (h, m, sec, rest)
          | None => None
          end
      | Some (m, rest) => Some (h, m, 0%nat, rest)
      | None => None
      end
  | _ => None
  end.

Definition quote_char (c : ascii) : bool :=
  (nat_of_ascii c =? 39)%nat || (nat_of_ascii c =? 34)%nat.

(** [.at(<time>)] with the time in quotes, up to the end of the string. *)
Definition read_at (s : string) : option (nat * nat * nat) :=
  match drop_prefix ".at(" s with
  | Some (String q s1) =>
      if quote_char q then
        match read_time s1 with
        | Some (h, m, sec, String q' rest) =>
            if Ascii.eqb q q' && String.eqb rest ")" then Some (h, m, sec) else None
        | _ => None
        end
      else None
  | _ => None
  end.

(** The recurrence grammar in the words of the specification (section 4.5):
    [every(<optional integer, default 1>).<unit>[.at(<HH:MM[:SS]>)]] with the
    units seconds, minutes, hours, days, weeks and the seven weekdays.  The
    program itself has no parser: it hands the string to [eval], and the
    [schedule] package, a dependency, reads it. *)
Definition parse_schedule (s : string) : option Trigger :=
  match drop_prefix "every(" s with
  | None => None
  | Some s1 =>
      let '(value, ndigits, s2) := read_digits s1 0%Z 0%nat in
      let interval := if (ndigits =? 0)%nat then 1%Z else value in
      match drop_prefix ")." s2 with
      | None => None
      | Some s3 =>
          let '(word, s4) := read_word s3 in
          match unit_of_word word with
          | None => None
          | Some u =>
              match s4 with
              | EmptyString => Some {| t_interval := interval; t_unit := u; t_at := None |}
              | _ =>
                  match read_at s4 with
                  | Some t => Some {| t_interval := interval; t_unit := u; t_at := Some t |}
                  | None => None
                  end
              end
          end
      end
  end.

Definition in_grammar (s : string) : bool :=
  match parse_schedule s with Some _ => true | None => false end.

Definition unit_seconds (u : TimeUnit) : Z :=
  match u with
  | Seconds => 1
  | Minutes => 60
  | Hours => 3600
  | Days => 86400
  | Weeks | Weekday _ => 604800
  end.

(** A runtime to compute with.  Its evaluator registers a job for the
    expressions of the grammar and raises on every other text; its clock rule
    adds the period to the current time; its transport refuses the second
    message of every three with an SMTP error and the third with a socket
    error; its file system holds the documents of [files].  This is the
    evaluator the specification describes, not Python's: [schedule] refuses
    some strings of the grammar, and [eval] takes strings outside it, as
    [lambda_eval] and [python_eval] below have it for the strings they name. *)
Definition syntax_error (s : string) : Exn := OtherException "SyntaxError" "invalid syntax".

Definition grammar_eval (expression : string) (f : Callable) (t : Z) (table : list Job)
  : list Job * option Exn :=
  let parsed :=
    match drop_prefix "schedule." expression with
    | Some s1 =>
        match drop_suffix ".do(job)" s1 with
        | Some s2 => parse_schedule s2
        | None => None
        end
    | None => None
    end in
  match parsed with
  | Some trigger =>
      (table ++ [{| job_trigger := trigger;
                    job_next_run := (t + t_interval trigger * unit_seconds (t_unit trigger))%Z;
                    job_func := f |}], None)
  | None => (table, Some (syntax_error expression))
  end.

Definition flaky_smtp (n : nat) (_ : Mail) : option Exn :=
  match (n mod 3)%nat with
  | 1%nat => Some (SMTPException "Connection unexpectedly closed")
  | 2%nat => Some (OSError "Connection refused")
  | _ => None
  end.

Definition simple_repr (v : json) : string :=
  match v with
  | JNull => "None"
  | JBool true => "True"
  | JBool false => "False"
  | _ => "<value>"
  end.

Definition reference_runtime (files : list (string * Result pydict)) : Runtime :=
  {| read_json := fun path =>
       match find (fun entry => String.eqb path (fst entry)) files with
       | Some entry => snd entry
       | None => Raise FileNotFoundError
       end;
     repr := simple_repr;
     eval_expr := grammar_eval;
     next_run := fun trigger t => (t + t_interval trigger * unit_seconds (t_unit trigger))%Z;
     smtp := flaky_smtp |}.

(** The message [send_test_email] hands to the transport. *)
Definition test_mail (smtp_server smtp_port sender_email : json) : Mail :=
  {| mail_host := smtp_server; mail_port := smtp_port; mail_from := sender_email;
     mail_to := sender_email;
     mail_subject := [Lit "Test Email from Permission Review Tool"];
     mail_body := [Lit "This is a test email to verify that the email settings are configured correctly."] |}.

(** ** Sample documents *)

Definition permission_entry (description schedule : string) : json :=
  JDict [("description", JStr description);
         ("permission_details", JDict [("resource", JStr description)]);
         ("review_schedule", JStr schedule)].

Definition reviewer_entry (name email : string) : json :=
  JDict [("name", JStr name); ("email", JStr email)].

Definition config_with (permissions reviewers : list json) (port : json) : pydict :=
  [("permissions_to_review", JList permissions);
   ("reviewers", JList reviewers);
   ("smtp_server", JStr "localhost");
   ("smtp_port", port);
   ("sender_email", JStr "permission_review@example.com")].

Definition db_admin : json := permission_entry "db-admin" "every().monday.at('09:00')".
Definition s3_write : json := permission_entry "s3-write" "every(30).minutes".
Definition alice : json := reviewer_entry "Alice" "alice@example.com".
Definition bob : json := reviewer_entry "Bob" "bob@example.com".

(** Two permissions and two reviewers. *)
Definition sample_config : pydict := config_with [db_admin; s3_write] [alice; bob] (JInt 25).

(** The same, with the port written as a string of digits. *)
Definition string_port_config : pydict :=
  config_with [db_admin; s3_write] [alice; bob] (JStr "25").

(** A configuration whose port is [null]. *)
Definition null_port_config : pydict := config_with [db_admin] [alice] JNull.

(** A configuration that lacks [reviewers] and [smtp_port]. *)
Definition keyless_config : pydict :=
  [("permissions_to_review", JList [db_admin]);
   ("smtp_server", JStr "localhost");
   ("sender_email", JStr "permission_review@example.com")].

(** A schedule string outside the recurrence grammar. *)
Definition foreign_schedule : string := "clear() or schedule.every().days".

Definition foreign_config : pydict :=
  config_with [permission_entry "db-admin" foreign_schedule] [alice] (JInt 25).

(** Three permissions, the second with a schedule string that is not read. *)
Definition mixed_config : pydict :=
  config_with [db_admin; permission_entry "vpn" "every day at nine"; s3_write] [alice; bob]
    (JInt 25).

(** A configuration without reviewers. *)
Definition lonely_config : pydict := config_with [db_admin; s3_write] [] (JInt 25).

(** A reviewer entry that has no [email]. *)
Definition nameless_address : json := JDict [("name", JStr "Carol")].

(** A configuration whose second and third permission entries are both bad:
    the second is no dictionary, the third lacks its schedule. *)
Definition two_bad_config : pydict :=
  config_with [db_admin; JStr "s3-write";
               JDict [("description", JStr "vpn"); ("permission_details", JDict [])]]
    [alice] (JInt 25).

Definition demo_files : list (string * Result pydict) :=
  [("permission_review_config.json", Ok sample_config);
   ("string_port.json", Ok string_port_config);
   ("null_port.json", Ok null_port_config);
   ("broken.json", Raise JSONDecodeError)].

Definition demo_runtime : Runtime := reference_runtime demo_files.

(** A schedule string that hands [.do] a function of its own before the
    expression goes on to [job]. *)
Definition lambda_schedule : string :=
  "every().seconds.do(lambda: 1/0) and schedule.every().seconds".

Definition lambda_config : pydict :=
  config_with [permission_entry "db-admin" lambda_schedule] [alice] (JInt 25).

Definition every_second : Trigger :=
  {| t_interval := 1; t_unit := Seconds; t_at := None |}.

Definition division_by_zero : Exn := OtherException "ZeroDivisionError" "division by zero".

(** Python on the text made of that string:
    [schedule.every().seconds.do(lambda: 1/0)] registers a job that calls the
    lambda and returns the job; a job is true, so [and] goes on to
    [schedule.every().seconds.do(job)], which registers a second job.  Every
    other text is read as the reference runtime reads it. *)
Definition lambda_eval (expression : string) (f : Callable) (t : Z) (table : list Job)
  : list Job * option Exn :=
  if String.eqb expression ("schedule." ++ lambda_schedule ++ ".do(job)")
  then (table ++ [{| job_trigger := every_second; job_next_run := (t + 1)%Z;
                     job_func := OtherFunction (Some division_by_zero) |};
                  {| job_trigger := every_second; job_next_run := (t + 1)%Z;
                     job_func := f |}], None)
  else grammar_eval expression f t table.

Definition lambda_runtime : Runtime :=
  {| read_json := fun path =>
       if String.eqb path "lambda.json" then Ok lambda_config else Raise FileNotFoundError;
     repr := simple_repr;
     eval_expr := lambda_eval;
     next_run := fun trigger t => (t + t_interval trigger * unit_seconds (t_unit trigger))%Z;
     smtp := flaky_smtp |}.

(** A schedule string of the grammar that [schedule] refuses. *)
Definition biweekly_schedule : string := "every(2).monday".

Definition biweekly_config : pydict :=
  config_with [permission_entry "db-admin" biweekly_schedule] [alice] (JInt 25).

(** A schedule string outside the grammar that ends the process. *)
Definition exit_schedule : string := "every().days.do(job) and exit(1)".

Definition exit_config : pydict :=
  config_with [permission_entry "db-admin" exit_schedule; s3_write] [alice] (JInt 25).

Definition every_day : Trigger :=
  {| t_interval := 1; t_unit := Days; t_at := None |}.

Definition interval_error : Exn :=
  OtherException "IntervalError"
    "Scheduling .monday() jobs is only allowed for weekly jobs. Using .monday() on a job scheduled to run every 2 or more weeks is not supported.".

(** Python on the texts made of three schedule strings.
    [schedule.every(2).monday.do(job)]: the property [monday] of a job whose
    interval is not 1 raises [IntervalError], a subclass of [Exception],
    before [.do] is reached, and the table is as it was.
    [schedule.clear() or schedule.every().days.do(job)]: [clear()] empties
    the table and returns [None], so [or] goes on and one job is registered.
    [schedule.every().days.do(job) and exit(1).do(job)]: the job is
    registered and is true, so [and] goes on to [exit(1)], which raises
    [SystemExit].  Every other text is read as [lambda_eval] reads it. *)
Definition python_eval (expression : string) (f : Callable) (t : Z) (table : list Job)
  : list Job * option Exn :=
  if String.eqb expression ("schedule." ++ biweekly_schedule ++ ".do(job)")
  then (table, Some interval_error)
  else if String.eqb expression ("schedule." ++ foreign_schedule ++ ".do(job)")
  then ([{| job_trigger := every_day; job_next_run := (t + 86400)%Z; job_func := f |}], None)
  else if String.eqb expression ("schedule." ++ exit_schedule ++ ".do(job)")
  then (table ++ [{| job_trigger := every_day; job_next_run := (t + 86400)%Z;
                     job_func := f |}], Some (SystemExit 1))
  else lambda_eval expression f t table.

Definition python_runtime : Runtime :=
  {| read_json := fun path =>
       if String.eqb path "exit.json" then Ok exit_config else Raise FileNotFoundError;
     repr := simple_repr;
     eval_expr := python_eval;
     next_run := fun trigger t => (t + t_interval trigger * unit_seconds (t_unit trigger))%Z;
     smtp := flaky_smtp |}.

(** The world once [schedule_reviews] has run on the sample, at a time when
    all four jobs are due. *)
Definition round_world : World :=
  set_clock 1000000 0 (snd (@schedule_reviews demo_runtime sample_config empty_world)).

(** A world in which the transport has been used once before. *)
Definition used_world : World :=
  set_sent [(test_mail (JStr "localhost") (JInt 25) (JStr "permission_review@example.com"),
             None)] empty_world.

(** ** Vocabulary of the statements *)

(** The first of [keys] that a dictionary lacks. *)
Definition first_missing (keys : list string) (d : pydict) : option string :=
  find (fun key => negb (dict_mem key d)) keys.



(** [v[k]], or [None] where that raises. *)
Definition field (v : json) (k : string) : json :=
  match subscript_value v k with
  | Ok x => x
  | Raise _ => JNull
  end.

Definition permissions_of (config : pydict) : list json :=
  match dict_get "permissions_to_review" config with
  | Some (JList l) => l
  | _ => []
  end.

Definition reviewers_of (config : pydict) : list json :=
  match dict_get "reviewers" config with
  | Some (JList l) => l
  | _ => []
  end.

(** The last element of a list, if it has one. *)
Definition last_of {A} (l : list A) : option A := last (map Some l) None.

(** The shape of a configuration that passes validation. *)
Record Validated (config : pydict) : Prop := {
  v_permissions : exists l, dict_get "permissions_to_review" config = Some (JList l);
  v_each_permission : Forall (fun p => check_permission p = Ok tt) (permissions_of config);
  v_reviewers : exists l, dict_get "reviewers" config = Some (JList l);
  v_each_reviewer : Forall (fun r => check_reviewer r = Ok tt) (reviewers_of config);
  v_server : exists s, dict_get "smtp_server" config = Some (JStr s);
  v_port : exists v n, dict_get "smtp_port" config = Some v /\ py_int v = Ok n
                       /\ (0 < n < 65535)%Z;
  v_sender : exists s, dict_get "sender_email" config = Some (JStr s) /\ str_in "@" s = true
}.

(** *** The schema, rule by rule, as the specification words it *)

Definition is_mapping_at (key : string) (d : pydict) : bool :=
  match dict_get key d with Some (JDict _) => true | _ => false end.

Definition is_string_at (key : string) (d : pydict) : bool :=
  match dict_get key d with Some (JStr _) => true | _ => false end.

Definition is_address_at (key : string) (d : pydict) : bool :=
  match dict_get key d with Some (JStr s) => str_in "@" s | _ => false end.

(** A mapping that has [description], [permission_details] (a mapping) and
    [review_schedule] (a string). *)
Definition permission_ok (v : json) : bool :=
  match v with
  | JDict p =>
      dict_mem "description" p && is_mapping_at "permission_details" p
      && is_string_at "review_schedule" p
  | _ => false
  end.

(** A mapping that has [name] and [email], the latter a string containing
    an at sign. *)
Definition reviewer_ok (v : json) : bool :=
  match v with
  | JDict r => dict_mem "name" r && is_address_at "email" r
  | _ => false
  end.

Definition sequence_of (ok : json -> bool) (key : string) (d : pydict) : bool :=
  match dict_get key d with Some (JList l) => forallb ok l | _ => false end.

(** An integer-coercible value strictly between 0 and 65535. *)
Definition port_ok (d : pydict) : bool :=
  match dict_get "smtp_port" d with
  | Some v =>
      match py_int v with
      | Ok n => (0 <? n)%Z && (n <? 65535)%Z
      | Raise _ => false
      end
  | None => false
  end.

(** The six rules of the schema together. *)
Definition schema_ok (d : pydict) : bool :=
  forallb (fun key => dict_mem key d) required_keys
  && sequence_of permission_ok "permissions_to_review" d
  && sequence_of reviewer_ok "reviewers" d
  && is_string_at "smtp_server" d
  && port_ok d
  && is_address_at "sender_email" d.

(** The six rules of the schema as conditions on the document, in the order
    of the specification. *)
Definition schema_checks (d : pydict) : list bool :=
  [forallb (fun key => dict_mem key d) required_keys;
   sequence_of permission_ok "permissions_to_review" d;
   sequence_of reviewer_ok "reviewers" d;
   is_string_at "smtp_server" d;
   port_ok d;
   is_address_at "sender_email" d].

(** The number, from 1, of the first condition that does not hold. *)
Fixpoint first_violated (checks : list bool) : option nat :=
  match checks with
  | [] => None
  | false :: _ => Some 1%nat
  | true :: rest => option_map S (first_violated rest)
  end.

(** The errors [validate_config] has for each rule. *)
Definition rule_error (rule : nat) (e : Exn) : Prop :=
  match rule with
  | 1%nat =>
      exists key, In key required_keys
                  /\ e = ValueError ("Missing required configuration key: " ++ key)
  | 2%nat =>
      e = ValueError "permissions_to_review must be a list of dictionaries."
      \/ e = ValueError "Each permission entry in permissions_to_review must be a dictionary."
      \/ (exists key, In key required_permission_keys
                      /\ e = ValueError ("Missing required key in permission: " ++ key))
      \/ e = ValueError "permission_details must be a dictionary"
      \/ e = ValueError "review_schedule must be a string"
  | 3%nat =>
      e = ValueError "reviewers must be a list of dictionaries."
      \/ e = ValueError "Each reviewer entry in reviewers must be a dictionary."
      \/ (exists key, In key required_reviewer_keys
                      /\ e = ValueError ("Missing required key in reviewer: " ++ key))
      \/ e = ValueError "Reviewer email must be a valid email address."
  | 4%nat => e = ValueError "smtp_server must be a string."
  | 5%nat => e = ValueError port_message
  | 6%nat => e = ValueError "Sender email must be a valid email address."
  | _ => False
  end.

(** A string of ASCII characters. *)
Definition ascii_only (s : string) : bool :=
  forallb (fun c => (nat_of_ascii c <? 128)%nat) (list_ascii_of_string s).

(** The recipient and the subject of a message say which reviewer and which
    permission a job was called with. *)
Definition addressed (m : Mail) : json * text := (mail_to m, mail_subject m).

Definition config_test_mail (config : pydict) : Mail :=
  test_mail (field (JDict config) "smtp_server") (field (JDict config) "smtp_port")
    (field (JDict config) "sender_email").

(** The world after [send_email] has logged a failed send, which it does for
    an SMTP error alone. *)
Definition after_failed_send (e : Exn) (recipient : json) (w : World) : World :=
  if is_SMTPException e
  then set_log (w_log w ++ [(ERROR, [Lit "Error sending email to "; Val recipient;
                                     Lit ": "; Exc e])]) w
  else w.

Definition test_args (path : string) : Args :=
  {| args_config := path; args_test_email := true |}.

Definition schedule_args (path : string) : Args :=
  {| args_config := path; args_test_email := false |}.

(** The line [main] prints for an exception raised in its [try] block: the
    first [except] clause that matches decides. *)
Definition failure_line (path : string) (e : Exn) : text :=
  if is_FileNotFoundError e
  then [Lit "Error: Configuration file not found: "; Val (JStr path)]
  else if is_JSONDecodeError e
  then [Lit "Error: Invalid JSON in configuration file: "; Val (JStr path)]
  else if is_ValueError e
  then [Lit "Error: Invalid configuration: "; Exc e]
  else [Lit "An unexpected error occurred: "; Exc e].

(** A computation leaves an observation of the world as it was, whether it
    returns or raises. *)
Definition keeps {X A : Type} (observe : World -> X) (c : M A) : Prop :=
  forall w, observe (snd (c w)) = observe w.

(** What neither a send nor a call of [job] has any business with: the
    activations, the job table, the texts evaluated, the console, the clock. *)
Definition outside_task (w : World)
  : list Frame * list Job * list string * list text * Z * nat :=
  (w_frames w, w_jobs w, w_evaluated w, w_console w, w_now w, w_ticks w).

Section Forms.
Context {RT : Runtime}.

(** The text a permission's schedule is evaluated as. *)
Definition expression_of (permission : json) : string :=
  schedule_expression (field permission "review_schedule").

(** Evaluating [text], the evaluator raises nothing but subclasses of
    [Exception]. *)
Definition eval_raises_Exception_on (text : string) : Prop :=
  forall f t table e, snd (eval_expr text f t table) = Some e -> is_Exception e = true.

Definition eval_raises_Exception : Prop :=
  forall text, eval_raises_Exception_on text.

(** The transport raises nothing but subclasses of [Exception]. *)
Definition smtp_raises_Exception : Prop :=
  forall n m e, smtp n m = Some e -> is_Exception e = true.

(** The job [.do(job)] adds to the table. *)
Definition new_job (trigger : Trigger) (t : Z) (f : Callable) : Job :=
  {| job_trigger := trigger; job_next_run := next_run trigger t; job_func := f |}.

(** On the schedule string [s] the evaluator does what [parse] says: it adds
    one job with the trigger read from [s], or raises [failure s] and leaves
    the table as it was. *)
Definition eval_follows (parse : string -> option Trigger) (failure : string -> Exn)
  (s : string) : Prop :=
  forall f t table,
    eval_expr ("schedule." ++ s ++ ".do(job)") f t table =
    match parse s with
    | Some trigger => (table ++ [new_job trigger t f], None)
    | None => (table, Some (failure s))
    end.

Definition scheduled_entry (permission reviewer : json) : Level * text :=
  (INFO, [Lit "Scheduled review for "; Val (field permission "description"); Lit " by ";
          Val (field reviewer "name"); Lit " with schedule: ";
          Val (field permission "review_schedule")]).

Definition failed_entry (permission reviewer : json) (e : Exn) : Level * text :=
  (ERROR, [Lit "Failed to schedule review for "; Val (field permission "description");
           Lit " by "; Val (field reviewer "name"); Lit " with schedule: ";
           Val (field permission "review_schedule"); Lit ": "; Exc e]).

(** The world after the inner loop's body has run for one pair. *)
Definition pair_world (frame : nat) (permission reviewer : json) (w : World) : World :=
  let '(table, outcome) :=
    eval_expr (expression_of permission) (JobClosure frame) (w_now w) (w_jobs w) in
  set_log (w_log w ++ [match outcome with
                       | None => scheduled_entry permission reviewer
                       | Some e => failed_entry permission reviewer e
                       end])
    (set_jobs table (set_evaluated (w_evaluated w ++ [expression_of permission]) w)).

Definition reviewer_step (frame : nat) (permission : json) (w : World) (reviewer : json)
  : World :=
  pair_world frame permission reviewer (snd (assign_reviewer frame reviewer w)).

Definition permission_step (frame : nat) (reviewers : list json) (w : World)
  (permission : json) : World :=
  fold_left (reviewer_step frame permission) reviewers
    (snd (assign_permission frame permission w)).

(** The message [create_review_task] hands to the transport. *)
Definition review_mail (permission reviewer smtp_server smtp_port sender_email : json) : Mail :=
  {| mail_host := smtp_server; mail_port := smtp_port; mail_from := sender_email;
     mail_to := field reviewer "email";
     mail_subject := review_subject (field permission "description");
     mail_body := review_body (field reviewer "name") (field permission "description")
                    (field permission "permission_details") |}.

(** The world after [create_review_task] has used the transport once. *)
Definition task_world (permission reviewer smtp_server smtp_port sender_email : json)
  (w : World) : World :=
  let m := review_mail permission reviewer smtp_server smtp_port sender_email in
  let outcome := smtp (length (w_sent w)) m in
  set_log
    (w_log w ++
     match outcome with
     | None => [(INFO, [Lit "Email sent successfully to "; Val (mail_to m)])]
     | Some e =>
         (if is_SMTPException e
          then [(ERROR, [Lit "Error sending email to "; Val (mail_to m); Lit ": "; Exc e])]
          else []) ++
         [(ERROR, [Lit "Failed to send email for "; Val (field permission "description");
                   Lit " review to "; Val (mail_to m); Lit ": "; Exc e])]
     end)
    (set_sent (w_sent w ++ [(m, outcome)]) w).

(** A permission and a reviewer that have the keys [create_review_task] reads. *)
Definition task_ready (permission reviewer : json) : bool :=
  match permission, reviewer with
  | JDict p, JDict r =>
      dict_mem "description" p && dict_mem "permission_details" p
      && dict_mem "name" r && dict_mem "email" r
  | _, _ => false
  end.

(** An activation whose cells are bound to such a pair and whose configuration
    has the three transport settings. *)
Definition frame_ready (cells : Frame) : bool :=
  match f_permission cells, f_reviewer cells with
  | Some p, Some r =>
      task_ready p r && dict_mem "smtp_server" (f_config cells)
      && dict_mem "smtp_port" (f_config cells) && dict_mem "sender_email" (f_config cells)
  | _, _ => false
  end.

Definition callable (fs : list Frame) (f : Callable) : bool :=
  match f with
  | JobClosure frame =>
      match nth_error fs frame with
      | Some cells => frame_ready cells
      | None => false
      end
  | OtherFunction _ => false
  end.

(** Every job of the table is a closure [job] over a ready activation. *)
Definition callable_jobs (w : World) : bool :=
  forallb (fun j => callable (w_frames w) (job_func j)) (w_jobs w).

Definition cell_value (cell : option json) : json :=
  match cell with
  | Some v => v
  | None => JNull
  end.

(** The message a closure over these cells sends when it is called. *)
Definition frame_mail (cells : Frame) : Mail :=
  review_mail (cell_value (f_permission cells)) (cell_value (f_reviewer cells))
    (field (JDict (f_config cells)) "smtp_server")
    (field (JDict (f_config cells)) "smtp_port")
    (field (JDict (f_config cells)) "sender_email").

Definition unbound_cells : Frame :=
  {| f_config := []; f_permission := None; f_reviewer := None |}.

Definition closure_mail (fs : list Frame) (f : Callable) : Mail :=
  match f with
  | JobClosure frame =>
      match nth_error fs frame with
      | Some cells => frame_mail cells
      | None => frame_mail unbound_cells
      end
  | OtherFunction _ => frame_mail unbound_cells
  end.

(** The world after the closure over these cells has been called. *)
Definition frame_world (cells : Frame) (w : World) : World :=
  task_world (cell_value (f_permission cells)) (cell_value (f_reviewer cells))
    (field (JDict (f_config cells)) "smtp_server")
    (field (JDict (f_config cells)) "smtp_port")
    (field (JDict (f_config cells)) "sender_email") w.

(** Uses of the transport for these messages, in order, the first of them
    being use number [n]. *)
Fixpoint attempts (n : nat) (mails : list Mail) : list (Mail * option Exn) :=
  match mails with
  | [] => []
  | m :: rest => (m, smtp n m) :: attempts (S n) rest
  end.

(** The schedule string of a permission, as it is put into the expression. *)
Definition schedule_text (permission : json) : string :=
  py_str (field permission "review_schedule").

(** The jobs one pair adds to the table, and the line it logs, when the
    evaluator does what [parse] says. *)
Definition pair_jobs (parse : string -> option Trigger) (frame : nat) (t : Z)
  (permission : json) : list Job :=
  match parse (schedule_text permission) with
  | Some trigger => [new_job trigger t (JobClosure frame)]
  | None => []
  end.

Definition pair_entry (parse : string -> option Trigger) (failure : string -> Exn)
  (permission reviewer : json) : Level * text :=
  match parse (schedule_text permission) with
  | Some _ => scheduled_entry permission reviewer
  | None => failed_entry permission reviewer (failure (schedule_text permission))
  end.

(** The world after both loops of [schedule_reviews] have run to their end. *)
Definition setup_world (config : pydict) (w : World) : World :=
  fold_left (permission_step (length (w_frames w)) (reviewers_of config))
    (permissions_of config) (snd (new_frame config w)).

(** The cells of the activation when the loops are over: each loop variable
    holds the last value it was assigned. *)
Definition inner_cells (reviewers : list json) (cells : Frame) : Frame :=
  fold_left (fun c r => bind_reviewer r c) reviewers cells.

Definition outer_cells (permissions reviewers : list json) (cells : Frame) : Frame :=
  fold_left (fun c p => inner_cells reviewers (bind_permission p c)) permissions cells.

Definition final_cells (config : pydict) : Frame :=
  {| f_config := config;
     f_permission := last_of (permissions_of config);
     f_reviewer := match permissions_of config with
                   | [] => None
                   | _ => last_of (reviewers_of config)
                   end |}.

(** The pairs in the order the two loops of [schedule_reviews] visit them. *)
Definition pairs_of (config : pydict) : list (json * json) :=
  flat_map (fun p => map (fun r => (p, r)) (reviewers_of config)) (permissions_of config).

(** What the body of the inner loop makes of the job table and of the log for
    one pair: the table is what the evaluation of the pair's text leaves, and
    the log has one more line, of success when the evaluation returned and of
    failure, with the exception, when it raised. *)
Definition pair_step (frame : nat) (t : Z) (state : list Job * list (Level * text))
  (pair : json * json) : list Job * list (Level * text) :=
  let '(table, outcome) :=
    eval_expr (expression_of (fst pair)) (JobClosure frame) t (fst state) in
  (table, snd state ++ [match outcome with
                        | None => scheduled_entry (fst pair) (snd pair)
                        | Some e => failed_entry (fst pair) (snd pair) e
                        end]).

(** Evaluating [text] returns, having added to the table one job that calls
    the function given. *)
Definition registers_one_job (text : string) : Prop :=
  forall f t table, exists trigger due,
    eval_expr text f t table
    = (table ++ [{| job_trigger := trigger; job_next_run := due; job_func := f |}], None).


End Forms.

(** * Properties *)

(** ** Validation *)

Lemma dict_mem_get (k : string) (d : pydict) :
  dict_mem k d = true <-> exists v, dict_get k d = Some v.
Proof.
  unfold dict_mem. destruct (dict_get k d) as [v|].
  - split; [eauto | reflexivity].
  - split; [discriminate | intros [v H]; discriminate].
Qed.

Lemma require_keys_first_missing (prefix : string) (keys : list string) (d : pydict) :
  require_keys prefix keys d =
  match first_missing keys d with
  | Some k => Raise (ValueError (prefix ++ k))
  | None => Ok tt
  end.
Proof.
  unfold first_missing. induction keys as [|key rest IH]; simpl.
  - reflexivity.
  - destruct (dict_mem key d); simpl; [exact IH | reflexivity].
Qed.

Lemma require_keys_ok (prefix : string) (keys : list string) (d : pydict) :
  require_keys prefix keys d = Ok tt <-> Forall (fun k => dict_mem k d = true) keys.
Proof.
  induction keys as [|key rest IH]; simpl.
  - split; [constructor | reflexivity].
  - destruct (dict_mem key d) eqn:E.
    + rewrite IH. split; [now constructor | now inversion 1].
    + split; [discriminate | inversion 1; congruence].
Qed.

Lemma rfor_ok {A} (l : list A) (body : A -> Result unit) :
  rfor l body = Ok tt <-> Forall (fun x => body x = Ok tt) l.
Proof.
  induction l as [|x rest IH]; simpl.
  - split; [constructor | reflexivity].
  - destruct (body x) as [[]|e] eqn:E; simpl.
    + rewrite IH. split; [now constructor | now inversion 1].
    + split; [discriminate | inversion 1; congruence].
Qed.

Arguments require_keys : simpl never.

(** What a permission entry that passes its checks looks like. *)
Lemma check_permission_inv (permission : json) :
  check_permission permission = Ok tt ->
  exists p description details schedule,
    permission = JDict p
    /\ dict_get "description" p = Some description
    /\ dict_get "permission_details" p = Some (JDict details)
    /\ dict_get "review_schedule" p = Some (JStr schedule).
Proof.
  destruct permission as [| | | | | |p]; simpl; try discriminate.
  destruct (require_keys _ required_permission_keys p) as [[]|e] eqn:K; simpl; [|discriminate].
  apply require_keys_ok in K.
  inversion K as [|? ? Hd K1]; subst. inversion K1 as [|? ? Hp K2]; subst.
  inversion K2 as [|? ? Hs _]; subst.
  apply dict_mem_get in Hd as [description Hd].
  apply dict_mem_get in Hp as [details Hp].
  apply dict_mem_get in Hs as [schedule Hs].
  unfold subscript. rewrite Hp, Hs. simpl.
  destruct details; simpl; try discriminate.
  destruct schedule; simpl; try discriminate.
  intros _. eauto 10.
Qed.

(** What a reviewer entry that passes its checks looks like. *)
Lemma check_reviewer_inv (reviewer : json) :
  check_reviewer reviewer = Ok tt ->
  exists r name email,
    reviewer = JDict r
    /\ dict_get "name" r = Some name
    /\ dict_get "email" r = Some (JStr email)
    /\ str_in "@" email = true.
Proof.
  destruct reviewer as [| | | | | |r]; simpl; try discriminate.
  destruct (require_keys _ required_reviewer_keys r) as [[]|e] eqn:K; simpl; [|discriminate].
  apply require_keys_ok in K.
  inversion K as [|? ? Hn K1]; subst. inversion K1 as [|? ? He _]; subst.
  apply dict_mem_get in Hn as [name Hn].
  apply dict_mem_get in He as [email He].
  unfold subscript. rewrite He. simpl.
  destruct email; simpl; try discriminate.
  destruct (str_in "@" s) eqn:A; simpl; try discriminate.
  intros _. eauto 10.
Qed.

Lemma validate_config_inv (config : pydict) :
  validate_config config = Ok tt -> Validated config.
Proof.
  unfold validate_config.
  destruct (check_required_keys config) as [[]|e] eqn:K; simpl; [|discriminate].
  destruct (check_permissions config) as [[]|e] eqn:P; simpl; [|discriminate].
  destruct (check_reviewers config) as [[]|e] eqn:R; simpl; [|discriminate].
  destruct (check_smtp_server config) as [[]|e] eqn:S; simpl; [|discriminate].
  destruct (check_smtp_port config) as [[]|e] eqn:Q; simpl; [|discriminate].
  intros E.
  unfold check_permissions, subscript in P.
  destruct (dict_get "permissions_to_review" config) as [ps|] eqn:Gp; simpl in P;
    [|discriminate].
  destruct ps; simpl in P; try discriminate.
  unfold check_reviewers, subscript in R.
  destruct (dict_get "reviewers" config) as [rs|] eqn:Gr; simpl in R; [|discriminate].
  destruct rs; simpl in R; try discriminate.
  unfold check_smtp_server, subscript in S.
  destruct (dict_get "smtp_server" config) as [sv|] eqn:Gs; simpl in S; [|discriminate].
  destruct sv; simpl in S; try discriminate.
  unfold check_smtp_port, subscript in Q.
  destruct (dict_get "smtp_port" config) as [pv|] eqn:Gq; simpl in Q; [|discriminate].
  destruct (py_int pv) as [n|e] eqn:I; simpl in Q.
  2:{ destruct (is_ValueError e); discriminate. }
  destruct ((0 <? n)%Z && (n <? 65535)%Z) eqn:B; simpl in Q; [|discriminate].
  apply andb_true_iff in B as [B1 B2].
  apply Z.ltb_lt in B1. apply Z.ltb_lt in B2.
  unfold check_sender_email, subscript in E.
  destruct (dict_get "sender_email" config) as [ev|] eqn:Ge; simpl in E; [|discriminate].
  destruct ev; simpl in E; try discriminate.
  destruct (str_in "@" s0) eqn:A; simpl in E; [|discriminate].
  constructor; unfold permissions_of, reviewers_of; rewrite ?Gp, ?Gr; eauto.
  - now apply rfor_ok.
  - now apply rfor_ok.
  - exists pv, n. auto.
Qed.



(** The port rule, case by case. *)
Lemma check_smtp_port_cases (config : pydict) :
  check_smtp_port config =
  match dict_get "smtp_port" config with
  | None => Raise (KeyError "smtp_port")
  | Some v =>
      match py_int v with
      | Ok n => if ((0 <? n)%Z && (n <? 65535)%Z) then Ok tt else Raise (ValueError port_message)
      | Raise e => if is_ValueError e then Raise (ValueError port_message) else Raise e
      end
  end.
Proof.
  unfold check_smtp_port, subscript.
  destruct (dict_get "smtp_port" config) as [v|]; simpl; [|reflexivity].
  destruct (py_int v) as [n|e]; simpl; [|reflexivity].
  now destruct ((0 <? n)%Z && (n <? 65535)%Z).
Qed.

(** ** Calling a job *)

Section Properties.
Context {RT : Runtime}.

Lemma field_dict (d : pydict) (k : string) (v : json) :
  dict_get k d = Some v -> field (JDict d) k = v.
Proof. intros H. unfold field, subscript_value, subscript. now rewrite H. Qed.

Lemma subscript_field (d : pydict) (k : string) :
  dict_mem k d = true -> subscript d k = Ok (field (JDict d) k).
Proof.
  intros H. apply dict_mem_get in H as [v H].
  rewrite (field_dict _ _ _ H). unfold subscript. now rewrite H.
Qed.

(** What [send_email] does, by the outcome of the transport. *)
Lemma send_email_cases (subject body : text) (recipient smtp_server smtp_port sender_email : json)
  (w : World) :
  let m := {| mail_host := smtp_server; mail_port := smtp_port; mail_from := sender_email;
              mail_to := recipient; mail_subject := subject; mail_body := body |} in
  let w1 := set_sent (w_sent w ++ [(m, smtp (length (w_sent w)) m)]) w in
  send_email subject body recipient smtp_server smtp_port sender_email w =
  match smtp (length (w_sent w)) m with
  | None =>
      (Ok tt, set_log (w_log w ++ [(INFO, [Lit "Email sent successfully to "; Val recipient])]) w1)
  | Some e =>
      (Raise e,
       if is_SMTPException e
       then set_log (w_log w ++ [(ERROR, [Lit "Error sending email to "; Val recipient;
                                          Lit ": "; Exc e])]) w1
       else w1)
  end.
Proof.
  intros m w1. subst w1.
  unfold send_email, try_except, bind, transmit, logging, raise. fold m.
  cbv beta.
  destruct (smtp (length (w_sent w)) m) as [e|]; [|reflexivity].
  destruct (is_SMTPException e); reflexivity.
Qed.

Lemma create_review_task_world (permission reviewer smtp_server smtp_port sender_email : json)
  (w : World) :
  task_ready permission reviewer = true ->
  (forall e, smtp (length (w_sent w))
               (review_mail permission reviewer smtp_server smtp_port sender_email) = Some e ->
             is_Exception e = true) ->
  create_review_task permission reviewer smtp_server smtp_port sender_email w =
  (Ok tt, task_world permission reviewer smtp_server smtp_port sender_email w).
Proof.
  intros Hready Hexn.
  destruct permission as [| | | | | |p]; try discriminate.
  destruct reviewer as [| | | | | |r]; try discriminate.
  simpl in Hready.
  repeat (apply andb_true_iff in Hready as [Hready ?]).
  unfold create_review_task, task_world, bind, lift, try_except, subscript_value.
  rewrite !subscript_field by assumption.
  rewrite send_email_cases.
  unfold review_mail in *.
  set (m := {| mail_host := smtp_server |}) in *.
  destruct (smtp (length (w_sent w)) m) as [e|] eqn:S; [|reflexivity].
  rewrite (Hexn e eq_refl).
  unfold logging.
  destruct (is_SMTPException e); cbn; rewrite <- ?app_assoc; reflexivity.
Qed.

Lemma frame_ready_cells (cells : Frame) :
  frame_ready cells = true ->
  exists p r,
    f_permission cells = Some p /\ f_reviewer cells = Some r
    /\ task_ready p r = true
    /\ dict_mem "smtp_server" (f_config cells) = true
    /\ dict_mem "smtp_port" (f_config cells) = true
    /\ dict_mem "sender_email" (f_config cells) = true.
Proof.
  unfold frame_ready.
  destruct (f_permission cells) as [p|]; [|discriminate].
  destruct (f_reviewer cells) as [r|]; [|discriminate].
  intros H. repeat (apply andb_true_iff in H as [H ?]). eauto 10.
Qed.

(** Calling a closure over ready cells: it calls [create_review_task] with the
    contents the cells have at the time of the call. *)
Lemma job_calls_task (frame : nat) (cells : Frame) (w : World) :
  nth_error (w_frames w) frame = Some cells ->
  frame_ready cells = true ->
  job frame w =
    create_review_task (cell_value (f_permission cells)) (cell_value (f_reviewer cells))
      (field (JDict (f_config cells)) "smtp_server")
      (field (JDict (f_config cells)) "smtp_port")
      (field (JDict (f_config cells)) "sender_email") w.
Proof.
  intros Hnth Hready.
  destruct (frame_ready_cells _ Hready) as (p & r & Hp & Hr & Ht & Hs & Hq & He).
  unfold job. rewrite Hnth, Hp, Hr. unfold bind, read_cell, ret, lift.
  rewrite !subscript_field by assumption. reflexivity.
Qed.

(** Such a call returns, whatever the transport did. *)
Lemma job_world (frame : nat) (cells : Frame) (w : World) :
  smtp_raises_Exception ->
  nth_error (w_frames w) frame = Some cells ->
  frame_ready cells = true ->
  job frame w = (Ok tt, frame_world cells w).
Proof.
  intros Hsmtp Hnth Hready.
  rewrite (job_calls_task frame cells w Hnth Hready).
  destruct (frame_ready_cells _ Hready) as (p & r & Hp & Hr & Ht & _).
  unfold frame_world. rewrite Hp, Hr. simpl cell_value.
  apply create_review_task_world; [exact Ht|].
  intros e. apply Hsmtp.
Qed.


(** ** The polling loop *)

Lemma update_nth_map {A B} (f : A -> B) (g : A -> A) (n : nat) (l : list A) :
  (forall x, f (g x) = f x) -> map f (update_nth n g l) = map f l.
Proof.
  intros H. revert n. induction l as [|x rest IH]; intros [|n]; simpl; try reflexivity.
  - now rewrite H.
  - now rewrite IH.
Qed.

Lemma enumerate_from_snd {A} (n : nat) (l : list A) (x : nat * A) :
  In x (enumerate_from n l) -> In (snd x) l.
Proof.
  revert n. induction l as [|y rest IH]; simpl; intros n H; [exact H|].
  destruct H as [<- | H]; [now left | right; eapply IH; eauto].
Qed.

Lemma insert_job_In (x y : nat * Job) (l : list (nat * Job)) :
  In y (insert_job x l) -> y = x \/ In y l.
Proof.
  induction l as [|z rest IH]; simpl.
  - intros [<- | []]. now left.
  - destruct (job_next_run (snd x) <=? job_next_run (snd z))%Z; simpl.
    + intros [<- | H]; auto.
    + intros [<- | H]; auto. destruct (IH H); auto.
Qed.

Lemma sort_jobs_In (y : nat * Job) (l : list (nat * Job)) :
  In y (sort_jobs l) -> In y l.
Proof.
  induction l as [|x rest IH]; simpl; [auto|].
  intros H. apply insert_job_In in H as [-> | H]; auto.
Qed.

Lemma insert_job_length (x : nat * Job) (l : list (nat * Job)) :
  length (insert_job x l) = S (length l).
Proof.
  induction l as [|z rest IH]; simpl; [reflexivity|].
  destruct (job_next_run (snd x) <=? job_next_run (snd z))%Z; simpl; congruence.
Qed.

Lemma sort_jobs_length (l : list (nat * Job)) : length (sort_jobs l) = length l.
Proof.
  induction l as [|x rest IH]; simpl; [reflexivity|].
  now rewrite insert_job_length, IH.
Qed.

Lemma filter_enumerate_length {A} (f : A -> bool) (n : nat) (l : list A) :
  length (filter (fun ix => f (snd ix)) (enumerate_from n l)) = length (filter f l).
Proof.
  revert n. induction l as [|x rest IH]; intros n; simpl; [reflexivity|].
  destruct (f x); simpl; now rewrite IH.
Qed.

(** A round takes up every job of the table that is due, once. *)
Lemma runnable_jobs_count (w : World) :
  length (runnable_jobs w) = length (filter (should_run (w_now w)) (w_jobs w)).
Proof.
  unfold runnable_jobs. rewrite sort_jobs_length. apply filter_enumerate_length.
Qed.

Lemma runnable_jobs_In (w : World) (ij : nat * Job) :
  In ij (runnable_jobs w) -> In (snd ij) (w_jobs w).
Proof.
  unfold runnable_jobs. intros H. apply sort_jobs_In in H.
  apply filter_In in H as [H _]. eapply enumerate_from_snd; eauto.
Qed.

Lemma callable_jobs_map (w : World) :
  callable_jobs w = forallb (callable (w_frames w)) (map job_func (w_jobs w)).
Proof.
  unfold callable_jobs. induction (w_jobs w) as [|j rest IH]; simpl; [reflexivity|].
  now rewrite IH.
Qed.

Lemma callable_jobs_In (w : World) (j : Job) :
  callable_jobs w = true -> In j (w_jobs w) -> callable (w_frames w) (job_func j) = true.
Proof.
  unfold callable_jobs. rewrite forallb_forall. intros H Hin. now apply H.
Qed.

Lemma callable_cells (fs : list Frame) (f : Callable) :
  callable fs f = true ->
  exists frame cells,
    f = JobClosure frame /\ nth_error fs frame = Some cells /\ frame_ready cells = true
    /\ closure_mail fs f = frame_mail cells.
Proof.
  destruct f as [frame|outcome]; simpl; [|discriminate].
  destruct (nth_error fs frame) as [cells|] eqn:E; [|discriminate].
  intros H. exists frame, cells. auto.
Qed.

(** One job of a round: its function returns whatever the transport did, and
    the job is given its next time. *)
Lemma run_job_ok (ij : nat * Job) (w : World) :
  smtp_raises_Exception ->
  callable (w_frames w) (job_func (snd ij)) = true ->
  exists w',
    run_job ij w = (Ok tt, w')
    /\ w_frames w' = w_frames w
    /\ map job_func (w_jobs w') = map job_func (w_jobs w)
    /\ length (w_jobs w') = length (w_jobs w)
    /\ w_sent w' =
         w_sent w ++ attempts (length (w_sent w)) [closure_mail (w_frames w) (job_func (snd ij))]
    /\ w_evaluated w' = w_evaluated w
    /\ w_console w' = w_console w
    /\ w_now w' = w_now w
    /\ w_ticks w' = w_ticks w.
Proof.
  intros Hsmtp Hc.
  destruct (callable_cells _ _ Hc) as (frame & cells & Hf & Hnth & Hready & Hmail).
  pose proof (job_world frame cells w Hsmtp Hnth Hready) as Hjob.
  unfold run_job, bind. rewrite Hf. simpl call. rewrite Hjob.
  eexists. split; [reflexivity|].
  rewrite Hf in Hmail. rewrite Hmail.
  repeat split.
  - simpl. now apply update_nth_map.
  - simpl. rewrite <- !(length_map job_func). f_equal. now apply update_nth_map.
Qed.

Lemma run_jobs_ok (l : list (nat * Job)) (w : World) :
  smtp_raises_Exception ->
  Forall (fun ij => callable (w_frames w) (job_func (snd ij)) = true) l ->
  exists w',
    mfor l run_job w = (Ok tt, w')
    /\ w_frames w' = w_frames w
    /\ map job_func (w_jobs w') = map job_func (w_jobs w)
    /\ length (w_jobs w') = length (w_jobs w)
    /\ w_sent w' =
         w_sent w ++ attempts (length (w_sent w))
                       (map (fun ij => closure_mail (w_frames w) (job_func (snd ij))) l)
    /\ w_evaluated w' = w_evaluated w
    /\ w_console w' = w_console w
    /\ w_now w' = w_now w
    /\ w_ticks w' = w_ticks w.
Proof.
  intros Hsmtp. revert w. induction l as [|ij rest IH]; intros w Hall.
  - exists w. simpl. rewrite app_nil_r. repeat split; reflexivity.
  - inversion Hall as [|? ? Hij Hrest]; subst.
    destruct (run_job_ok ij w Hsmtp Hij)
      as (w1 & E1 & F1 & J1 & L1 & S1 & V1 & C1 & N1 & T1).
    destruct (IH w1) as (w2 & E2 & F2 & J2 & L2 & S2 & V2 & C2 & N2 & T2).
    { rewrite F1. exact Hrest. }
    exists w2. simpl mfor. unfold bind. rewrite E1, E2.
    split; [reflexivity|].
    repeat split; try congruence.
    rewrite S2, S1, F1. simpl attempts. rewrite <- app_assoc. simpl.
    rewrite length_app. simpl. now rewrite Nat.add_1_r.
Qed.

Lemma callable_jobs_same (w w' : World) :
  w_frames w' = w_frames w ->
  map job_func (w_jobs w') = map job_func (w_jobs w) ->
  callable_jobs w' = callable_jobs w.
Proof. intros F J. rewrite !callable_jobs_map. now rewrite F, J. Qed.

Lemma run_pending_ok (w : World) :
  smtp_raises_Exception ->
  callable_jobs w = true ->
  exists w',
    run_pending w = (Ok tt, w')
    /\ w_frames w' = w_frames w
    /\ callable_jobs w' = true
    /\ w_sent w' =
         w_sent w ++ attempts (length (w_sent w))
                       (map (fun ij => closure_mail (w_frames w) (job_func (snd ij)))
                            (runnable_jobs w))
    /\ w_evaluated w' = w_evaluated w
    /\ w_console w' = w_console w
    /\ w_now w' = w_now w
    /\ w_ticks w' = w_ticks w.
Proof.
  intros Hsmtp Hc.
  destruct (run_jobs_ok (runnable_jobs w) w Hsmtp)
    as (w' & E & F & J & L & S & V & C & N & T).
  { apply Forall_forall. intros ij Hin.
    apply callable_jobs_In; [exact Hc | now apply runnable_jobs_In]. }
  exists w'. unfold run_pending. rewrite E.
  repeat split; try assumption.
  now rewrite (callable_jobs_same w w' F J).
Qed.

(** The loop goes on for as many rounds as one cares to watch. *)
Lemma poll_ok (rounds : nat) (w : World) :
  smtp_raises_Exception ->
  callable_jobs w = true ->
  exists w',
    poll rounds w = (Ok StillPolling, w')
    /\ w_ticks w' = (w_ticks w + rounds)%nat
    /\ w_frames w' = w_frames w
    /\ callable_jobs w' = true
    /\ w_evaluated w' = w_evaluated w
    /\ w_console w' = w_console w.
Proof.
  intros Hsmtp. revert w. induction rounds as [|n IH]; intros w Hc.
  - exists w. simpl. rewrite Nat.add_0_r. repeat split; auto.
  - destruct (run_pending_ok w Hsmtp Hc) as (w1 & E1 & F1 & C1 & _ & V1 & O1 & _ & T1).
    set (w2 := snd (sleep 60 w1)).
    assert (C2 : callable_jobs w2 = true) by exact C1.
    destruct (IH w2 C2) as (w3 & E3 & T3 & F3 & C3 & V3 & O3).
    exists w3. simpl poll. unfold bind. rewrite E1. unfold sleep at 1. fold w2.
    change (set_clock (w_now w1 + 60) (S (w_ticks w1)) w1) with w2.
    rewrite E3. repeat split; auto.
    + rewrite T3. subst w2. simpl. rewrite T1. lia.
    + rewrite F3. subst w2. simpl. exact F1.
    + rewrite V3. subst w2. simpl. exact V1.
    + rewrite O3. subst w2. simpl. exact O1.
Qed.

Lemma attempts_length (n : nat) (mails : list Mail) : length (attempts n mails) = length mails.
Proof. revert n. induction mails as [|m rest IH]; intros n; simpl; [|rewrite IH]; reflexivity. Qed.

(** C3, as the code has it. When the jobs of the table are closures [job]
    made by setup, every job that is due in a round of the polling loop is
    run, one use of the transport each and in the order of the round,
    whatever the transport raises for any of them: [create_review_task]
    catches the exception of a failed send, which stops neither the round nor
    the loop, still polling after any number of rounds. *)
Theorem C3_failed_send_stops_no_round (w : World) :
  smtp_raises_Exception ->
  callable_jobs w = true ->
  (exists w',
     run_pending w = (Ok tt, w')
     /\ w_sent w' =
          w_sent w ++ attempts (length (w_sent w))
                        (map (fun ij => closure_mail (w_frames w) (job_func (snd ij)))
                             (runnable_jobs w))
     /\ length (w_sent w')
        = (length (w_sent w) + length (filter (should_run (w_now w)) (w_jobs w)))%nat
     /\ callable_jobs w' = true)
  /\ forall rounds, exists w',
       poll rounds w = (Ok StillPolling, w') /\ w_ticks w' = (w_ticks w + rounds)%nat.
Proof.
  intros Hsmtp Hc. split.
  - destruct (run_pending_ok w Hsmtp Hc) as (w' & E & _ & C & S & _).
    exists w'. split; [exact E|]. split; [exact S|]. split; [|exact C].
    now rewrite S, length_app, attempts_length, length_map, runnable_jobs_count.
  - intros rounds. destruct (poll_ok rounds w Hsmtp Hc) as (w' & E & T & _).
    exists w'. auto.
Qed.

(** ** Setting the schedule up *)

Lemma check_permission_fields (permission : json) :
  check_permission permission = Ok tt ->
  exists p schedule,
    permission = JDict p
    /\ dict_mem "description" p = true
    /\ dict_mem "permission_details" p = true
    /\ dict_get "review_schedule" p = Some (JStr schedule)
    /\ field permission "review_schedule" = JStr schedule
    /\ schedule_text permission = schedule.
Proof.
  intros H. apply check_permission_inv in H
    as (p & description & details & schedule & -> & Hd & Hp & Hs).
  exists p, schedule. unfold schedule_text.
  rewrite (field_dict _ _ _ Hs). repeat split; auto.
  - apply dict_mem_get. eauto.
  - apply dict_mem_get. eauto.
Qed.

Lemma check_reviewer_fields (reviewer : json) :
  check_reviewer reviewer = Ok tt ->
  exists r, reviewer = JDict r /\ dict_mem "name" r = true /\ dict_mem "email" r = true.
Proof.
  intros H. apply check_reviewer_inv in H as (r & name & email & -> & Hn & He & _).
  exists r. repeat split; apply dict_mem_get; eauto.
Qed.

(** One pair: the text is evaluated, and the pair is logged as scheduled or as
    failed by what the evaluation did. *)
Lemma schedule_pair_world (frame : nat) (permission reviewer : json) (w : World) :
  eval_raises_Exception_on (expression_of permission) ->
  check_permission permission = Ok tt ->
  check_reviewer reviewer = Ok tt ->
  schedule_pair frame permission reviewer w = (Ok tt, pair_world frame permission reviewer w).
Proof.
  intros Heval Hp Hr.
  destruct (check_permission_fields _ Hp) as (p & s & -> & Hd & _ & Hs & Hf & _).
  destruct (check_reviewer_fields _ Hr) as (r & -> & Hn & _).
  unfold schedule_pair, pair_world, expression_of, bind, lift, try_except, py_eval, logging,
    scheduled_entry, failed_entry.
  rewrite Hf. unfold subscript_value.
  rewrite !subscript_field by (try assumption; apply dict_mem_get; eauto).
  rewrite (field_dict _ _ _ Hs).
  unfold eval_raises_Exception_on, expression_of in Heval. rewrite Hf in Heval.
  pose proof (Heval (JobClosure frame) (w_now w) (w_jobs w)) as He.
  destruct (eval_expr (schedule_expression (JStr s)) (JobClosure frame) (w_now w) (w_jobs w))
    as [table [e|]]; simpl in He |- *.
  - rewrite (He e eq_refl). reflexivity.
  - reflexivity.
Qed.

Lemma inner_loop_world (frame : nat) (permission : json) (reviewers : list json) (w : World) :
  eval_raises_Exception_on (expression_of permission) ->
  check_permission permission = Ok tt ->
  Forall (fun r => check_reviewer r = Ok tt) reviewers ->
  mfor reviewers
    (fun reviewer => assign_reviewer frame reviewer ;; schedule_pair frame permission reviewer) w
  = (Ok tt, fold_left (reviewer_step frame permission) reviewers w).
Proof.
  intros Heval Hp. revert w. induction reviewers as [|r rest IH]; intros w Hall.
  - reflexivity.
  - inversion Hall as [|? ? Hr Hrest]; subst.
    simpl mfor. simpl fold_left. unfold bind at 1. unfold bind at 1.
    unfold assign_reviewer at 1.
    rewrite schedule_pair_world by assumption.
    now rewrite IH.
Qed.

Lemma reviewers_of_validated (config : pydict) :
  Validated config ->
  (let* v := subscript config "reviewers" in py_iter v) = Ok (reviewers_of config).
Proof.
  intros V. destruct (v_reviewers _ V) as [l E].
  unfold reviewers_of, subscript. now rewrite E.
Qed.

Lemma permissions_of_validated (config : pydict) :
  Validated config ->
  (let* v := subscript config "permissions_to_review" in py_iter v) = Ok (permissions_of config).
Proof.
  intros V. destruct (v_permissions _ V) as [l E].
  unfold permissions_of, subscript. now rewrite E.
Qed.

Lemma bind_ok {A B} (c : M A) (k : A -> M B) (w w' : World) (a : A) :
  c w = (Ok a, w') -> bind c k w = k a w'.
Proof. intros H. unfold bind. now rewrite H. Qed.

Lemma schedule_permission_world (frame : nat) (config : pydict) (permission : json) (w : World) :
  eval_raises_Exception_on (expression_of permission) ->
  Validated config ->
  check_permission permission = Ok tt ->
  schedule_permission frame config permission w
  = (Ok tt, fold_left (reviewer_step frame permission) (reviewers_of config) w).
Proof.
  intros Heval V Hp. unfold schedule_permission.
  rewrite (bind_ok _ _ w w (reviewers_of config)).
  - apply inner_loop_world; auto using v_each_reviewer.
  - unfold lift. now rewrite (reviewers_of_validated _ V).
Qed.

Lemma outer_loop_world (frame : nat) (config : pydict) (permissions : list json) (w : World) :
  Forall (fun p => eval_raises_Exception_on (expression_of p)) permissions ->
  Validated config ->
  Forall (fun p => check_permission p = Ok tt) permissions ->
  mfor permissions
    (fun permission =>
       assign_permission frame permission ;; schedule_permission frame config permission) w
  = (Ok tt, fold_left (permission_step frame (reviewers_of config)) permissions w).
Proof.
  intros Heval V. revert w. induction permissions as [|p rest IH]; intros w Hall.
  - reflexivity.
  - inversion Hall as [|? ? Hp Hrest]; subst.
    inversion Heval as [|? ? Hev Hevs]; subst.
    simpl mfor. simpl fold_left.
    rewrite (bind_ok _ _ w (permission_step frame (reviewers_of config) w p) tt).
    + now apply IH.
    + rewrite (bind_ok _ _ w (snd (assign_permission frame p w)) tt) by reflexivity.
      now apply schedule_permission_world.
Qed.

(** Setup on a validated configuration returns, and leaves the world that the
    two loops, run to their end, make of it. *)
Lemma schedule_reviews_world (config : pydict) (w : World) :
  Forall (fun p => eval_raises_Exception_on (expression_of p)) (permissions_of config) ->
  validate_config config = Ok tt ->
  schedule_reviews config w = (Ok tt, setup_world config w).
Proof.
  intros Heval Hv. apply validate_config_inv in Hv.
  unfold schedule_reviews, setup_world.
  rewrite (bind_ok _ _ w (snd (new_frame config w)) (length (w_frames w))) by reflexivity.
  rewrite (bind_ok _ _ _ (snd (new_frame config w)) (permissions_of config)).
  - apply outer_loop_world; auto using v_each_permission.
  - unfold lift. now rewrite (permissions_of_validated _ Hv).
Qed.

(** *** What setup leaves in the world, whatever the evaluator does *)

Lemma update_nth_last {A} (g : A -> A) (l : list A) (x : A) :
  update_nth (length l) g (l ++ [x]) = l ++ [g x].
Proof. induction l as [|y rest IH]; simpl; [reflexivity | now rewrite IH]. Qed.

Lemma pair_world_fields (frame : nat) (permission reviewer : json) (w : World) :
  w_frames (pair_world frame permission reviewer w) = w_frames w
  /\ w_evaluated (pair_world frame permission reviewer w)
     = w_evaluated w ++ [expression_of permission]
  /\ w_sent (pair_world frame permission reviewer w) = w_sent w
  /\ w_console (pair_world frame permission reviewer w) = w_console w
  /\ w_now (pair_world frame permission reviewer w) = w_now w
  /\ w_ticks (pair_world frame permission reviewer w) = w_ticks w.
Proof.
  unfold pair_world.
  destruct (eval_expr (expression_of permission) (JobClosure frame) (w_now w) (w_jobs w))
    as [table outcome].
  repeat split.
Qed.

Lemma inner_fold_fields (fs : list Frame) (permission : json) (reviewers : list json) :
  forall (cells : Frame) (w : World),
    w_frames w = fs ++ [cells] ->
    let w' := fold_left (reviewer_step (length fs) permission) reviewers w in
    w_frames w' = fs ++ [inner_cells reviewers cells]
    /\ w_evaluated w' = w_evaluated w ++ map (fun _ => expression_of permission) reviewers
    /\ w_sent w' = w_sent w
    /\ w_console w' = w_console w
    /\ w_now w' = w_now w
    /\ w_ticks w' = w_ticks w.
Proof.
  induction reviewers as [|r rest IH]; intros cells w Hf; simpl.
  - rewrite app_nil_r. repeat split; auto.
  - set (w1 := reviewer_step (length fs) permission w r).
    destruct (pair_world_fields (length fs) permission r
                (snd (assign_reviewer (length fs) r w))) as (F & V & S & C & N & T).
    fold (reviewer_step (length fs) permission w r) in F, V, S, C, N, T. fold w1 in F, V, S, C, N, T.
    simpl in F, V, S, C, N, T. rewrite Hf, update_nth_last in F.
    destruct (IH (bind_reviewer r cells) w1 F) as (F' & V' & S' & C' & N' & T').
    split; [exact F'|]. split; [|repeat split; congruence].
    rewrite V', V, <- app_assoc. reflexivity.
Qed.

Lemma outer_fold_fields (fs : list Frame) (reviewers permissions : list json) :
  forall (cells : Frame) (w : World),
    w_frames w = fs ++ [cells] ->
    let w' := fold_left (permission_step (length fs) reviewers) permissions w in
    w_frames w' = fs ++ [outer_cells permissions reviewers cells]
    /\ w_evaluated w'
       = w_evaluated w ++ flat_map (fun p => map (fun _ => expression_of p) reviewers) permissions
    /\ w_sent w' = w_sent w
    /\ w_console w' = w_console w
    /\ w_now w' = w_now w
    /\ w_ticks w' = w_ticks w.
Proof.
  induction permissions as [|p rest IH]; intros cells w Hf; simpl.
  - rewrite app_nil_r. repeat split; auto.
  - set (w0 := snd (assign_permission (length fs) p w)).
    assert (F0 : w_frames w0 = fs ++ [bind_permission p cells]).
    { subst w0. simpl. now rewrite Hf, update_nth_last. }
    destruct (inner_fold_fields fs p reviewers _ w0 F0) as (F & V & S & C & N & T).
    change (fold_left (reviewer_step (length fs) p) reviewers w0)
      with (permission_step (length fs) reviewers w p) in F, V, S, C, N, T.
    change (w_evaluated w0) with (w_evaluated w) in V.
    change (w_sent w0) with (w_sent w) in S.
    change (w_console w0) with (w_console w) in C.
    change (w_now w0) with (w_now w) in N.
    change (w_ticks w0) with (w_ticks w) in T.
    set (w1 := permission_step (length fs) reviewers w p) in *.
    destruct (IH _ w1 F) as (F' & V' & S' & C' & N' & T').
    split; [exact F'|]. split; [|repeat split; congruence].
    rewrite V', V, <- app_assoc. reflexivity.
Qed.

Lemma last_of_cons {A} (x : A) (l : list A) :
  last_of (x :: l) = match last_of l with Some y => Some y | None => Some x end.
Proof.
  unfold last_of. revert x. induction l as [|y rest IH]; intros x; [reflexivity|].
  change (last (map Some (x :: y :: rest)) None) with (last (map Some (y :: rest)) None).
  rewrite (IH y). now destruct (last (map Some rest) None).
Qed.

Lemma inner_cells_last (reviewers : list json) (cells : Frame) :
  inner_cells reviewers cells =
  match last_of reviewers with
  | Some r => bind_reviewer r cells
  | None => cells
  end.
Proof.
  unfold inner_cells. revert cells.
  induction reviewers as [|r rest IH]; intros cells; [reflexivity|].
  simpl fold_left. rewrite IH, last_of_cons.
  now destruct (last_of rest).
Qed.

Lemma outer_cells_last (permissions reviewers : list json) (cells : Frame) :
  outer_cells permissions reviewers cells =
  match last_of permissions with
  | Some p =>
      {| f_config := f_config cells; f_permission := Some p;
         f_reviewer := match last_of reviewers with
                       | Some r => Some r
                       | None => f_reviewer cells
                       end |}
  | None => cells
  end.
Proof.
  unfold outer_cells. revert cells.
  induction permissions as [|p rest IH]; intros cells; [reflexivity|].
  simpl fold_left. rewrite IH, last_of_cons, inner_cells_last.
  destruct (last_of rest) as [p'|]; destruct (last_of reviewers) as [r|]; reflexivity.
Qed.

Lemma last_of_nil_iff {A} (l : list A) : last_of l = None <-> l = [].
Proof.
  destruct l as [|x rest]; [split; reflexivity|].
  rewrite last_of_cons. destruct (last_of rest); split; discriminate.
Qed.

(** What setup leaves behind, whatever the evaluator does: one new activation
    whose loop variables hold the last permission and the last reviewer, and
    one evaluated text per pair, in the order of the loops. *)
Lemma setup_world_fields (config : pydict) (w : World) :
  w_frames (setup_world config w) = w_frames w ++ [final_cells config]
  /\ w_evaluated (setup_world config w)
     = w_evaluated w
       ++ flat_map (fun p => map (fun _ => expression_of p) (reviewers_of config))
            (permissions_of config)
  /\ w_sent (setup_world config w) = w_sent w
  /\ w_console (setup_world config w) = w_console w
  /\ w_now (setup_world config w) = w_now w
  /\ w_ticks (setup_world config w) = w_ticks w.
Proof.
  unfold setup_world.
  destruct (outer_fold_fields (w_frames w) (reviewers_of config) (permissions_of config)
              {| f_config := config; f_permission := None; f_reviewer := None |}
              (snd (new_frame config w)) eq_refl) as (F & V & S & C & N & T).
  split; [|repeat split; assumption].
  rewrite F, outer_cells_last. unfold final_cells.
  destruct (permissions_of config) as [|p rest] eqn:E; [reflexivity|].
  rewrite last_of_cons.
  destruct (last_of rest); destruct (last_of (reviewers_of config)); reflexivity.
Qed.

(** *** What setup leaves in the world when the evaluator follows a parser *)

Lemma pair_world_follows (parse : string -> option Trigger) (failure : string -> Exn)
  (frame : nat) (permission reviewer : json) (w : World) :
  eval_follows parse failure (schedule_text permission) ->
  w_jobs (pair_world frame permission reviewer w)
  = w_jobs w ++ pair_jobs parse frame (w_now w) permission
  /\ w_log (pair_world frame permission reviewer w)
     = w_log w ++ [pair_entry parse failure permission reviewer].
Proof.
  intros H. unfold pair_world, expression_of, schedule_expression.
  fold (schedule_text permission). rewrite H.
  unfold pair_jobs, pair_entry.
  destruct (parse (schedule_text permission)); simpl; rewrite ?app_nil_r; auto.
Qed.

Lemma inner_fold_follows (parse : string -> option Trigger) (failure : string -> Exn)
  (frame : nat) (permission : json) (reviewers : list json) :
  eval_follows parse failure (schedule_text permission) ->
  forall w : World,
    let w' := fold_left (reviewer_step frame permission) reviewers w in
    w_jobs w' = w_jobs w ++ flat_map (fun _ => pair_jobs parse frame (w_now w) permission) reviewers
    /\ w_log w' = w_log w ++ map (pair_entry parse failure permission) reviewers
    /\ w_now w' = w_now w.
Proof.
  intros H. induction reviewers as [|r rest IH]; intros w; simpl.
  - rewrite !app_nil_r. auto.
  - destruct (pair_world_follows parse failure frame permission r
                (snd (assign_reviewer frame r w)) H) as [J L].
    destruct (pair_world_fields frame permission r (snd (assign_reviewer frame r w)))
      as (_ & _ & _ & _ & N & _).
    change (pair_world frame permission r (snd (assign_reviewer frame r w)))
      with (reviewer_step frame permission w r) in J, L, N.
    simpl in J, L, N.
    destruct (IH (reviewer_step frame permission w r)) as (J' & L' & N').
    rewrite J', L', N', J, L, N, <- !app_assoc. auto.
Qed.

Lemma outer_fold_follows (parse : string -> option Trigger) (failure : string -> Exn)
  (frame : nat) (reviewers permissions : list json) :
  Forall (fun p => eval_follows parse failure (schedule_text p)) permissions ->
  forall w : World,
    let w' := fold_left (permission_step frame reviewers) permissions w in
    w_jobs w'
    = w_jobs w
      ++ flat_map (fun p => flat_map (fun _ => pair_jobs parse frame (w_now w) p) reviewers)
           permissions
    /\ w_log w'
       = w_log w ++ flat_map (fun p => map (pair_entry parse failure p) reviewers) permissions
    /\ w_now w' = w_now w.
Proof.
  induction permissions as [|p rest IH]; intros Hall w; simpl.
  - rewrite !app_nil_r. auto.
  - inversion Hall as [|? ? Hp Hrest]; subst.
    destruct (inner_fold_follows parse failure frame p reviewers Hp
                (snd (assign_permission frame p w))) as (J & L & N).
    change (fold_left (reviewer_step frame p) reviewers (snd (assign_permission frame p w)))
      with (permission_step frame reviewers w p) in J, L, N.
    simpl in J, L, N.
    destruct (IH Hrest (permission_step frame reviewers w p)) as (J' & L' & N').
    rewrite J', L', N', J, L, N, <- !app_assoc. auto.
Qed.

Lemma setup_world_follows (parse : string -> option Trigger) (failure : string -> Exn)
  (config : pydict) (w : World) :
  Forall (fun p => eval_follows parse failure (schedule_text p)) (permissions_of config) ->
  w_jobs (setup_world config w)
  = w_jobs w
    ++ flat_map (fun p => flat_map (fun _ => pair_jobs parse (length (w_frames w)) (w_now w) p)
                            (reviewers_of config))
         (permissions_of config)
  /\ w_log (setup_world config w)
     = w_log w
       ++ flat_map (fun p => map (pair_entry parse failure p) (reviewers_of config))
            (permissions_of config).
Proof.
  intros H. unfold setup_world.
  destruct (outer_fold_follows parse failure (length (w_frames w)) (reviewers_of config)
              (permissions_of config) H (snd (new_frame config w))) as (J & L & _).
  auto.
Qed.

Lemma follows_raises_Exception (parse : string -> option Trigger) (failure : string -> Exn)
  (permission : json) :
  eval_follows parse failure (schedule_text permission) ->
  (parse (schedule_text permission) = None ->
   is_Exception (failure (schedule_text permission)) = true) ->
  eval_raises_Exception_on (expression_of permission).
Proof.
  intros H Hf f t table e. unfold expression_of, schedule_expression.
  fold (schedule_text permission). rewrite H.
  destruct (parse (schedule_text permission)); simpl; [discriminate|].
  intros [= <-]. now apply Hf.
Qed.

Lemma flat_map_length_const {A B} (f : A -> list B) (n : nat) (l : list A) :
  (forall x, In x l -> length (f x) = n) -> length (flat_map f l) = (length l * n)%nat.
Proof.
  induction l as [|x rest IH]; intros H; simpl; [reflexivity|].
  rewrite length_app. rewrite (H x) by (left; reflexivity).
  rewrite IH; [reflexivity|]. intros y Hy. apply H. now right.
Qed.

Lemma flat_map_ext_In {A B} (f g : A -> list B) (l : list A) :
  (forall x, In x l -> f x = g x) -> flat_map f l = flat_map g l.
Proof.
  intros H. rewrite !flat_map_concat_map. f_equal. now apply map_ext_in.
Qed.

(** *** What setup does whatever the evaluator raises *)









(** *** The job table and the log, pair by pair *)

Lemma pair_world_step (frame : nat) (permission reviewer : json) (w : World) :
  (w_jobs (pair_world frame permission reviewer w),
   w_log (pair_world frame permission reviewer w))
  = pair_step frame (w_now w) (w_jobs w, w_log w) (permission, reviewer).
Proof.
  unfold pair_world, pair_step. simpl fst. simpl snd.
  destruct (eval_expr (expression_of permission) (JobClosure frame) (w_now w) (w_jobs w))
    as [table outcome]. reflexivity.
Qed.

Lemma inner_fold_steps (frame : nat) (permission : json) (reviewers : list json) :
  forall w : World,
    let w' := fold_left (reviewer_step frame permission) reviewers w in
    (w_jobs w', w_log w')
    = fold_left (pair_step frame (w_now w)) (map (fun r => (permission, r)) reviewers)
        (w_jobs w, w_log w)
    /\ w_now w' = w_now w.
Proof.
  induction reviewers as [|r rest IH]; intros w; simpl; [auto|].
  destruct (IH (reviewer_step frame permission w r)) as [E N].
  assert (Hn : w_now (reviewer_step frame permission w r) = w_now w).
  { unfold reviewer_step.
    destruct (pair_world_fields frame permission r (snd (assign_reviewer frame r w)))
      as (_ & _ & _ & _ & T & _). exact T. }
  rewrite Hn in E, N. split; [|exact N].
  rewrite E. f_equal. unfold reviewer_step.
  exact (pair_world_step frame permission r (snd (assign_reviewer frame r w))).
Qed.

Lemma outer_fold_steps (frame : nat) (reviewers permissions : list json) :
  forall w : World,
    let w' := fold_left (permission_step frame reviewers) permissions w in
    (w_jobs w', w_log w')
    = fold_left (pair_step frame (w_now w))
        (flat_map (fun p => map (fun r => (p, r)) reviewers) permissions)
        (w_jobs w, w_log w)
    /\ w_now w' = w_now w.
Proof.
  induction permissions as [|p rest IH]; intros w; simpl; [auto|].
  destruct (IH (permission_step frame reviewers w p)) as [E N].
  destruct (inner_fold_steps frame p reviewers (snd (assign_permission frame p w)))
    as [E1 N1].
  fold (permission_step frame reviewers w p) in E1, N1.
  change (w_now (snd (assign_permission frame p w))) with (w_now w) in E1, N1.
  change (w_jobs (snd (assign_permission frame p w))) with (w_jobs w) in E1.
  change (w_log (snd (assign_permission frame p w))) with (w_log w) in E1.
  rewrite N1 in E, N. split; [|exact N].
  rewrite E, fold_left_app. f_equal. exact E1.
Qed.

Lemma setup_world_steps (config : pydict) (w : World) :
  (w_jobs (setup_world config w), w_log (setup_world config w))
  = fold_left (pair_step (length (w_frames w)) (w_now w)) (pairs_of config)
      (w_jobs w, w_log w).
Proof.
  unfold setup_world, pairs_of.
  exact (proj1 (outer_fold_steps (length (w_frames w)) (reviewers_of config)
                  (permissions_of config) (snd (new_frame config w)))).
Qed.

Lemma map_flat_map_pairs {A B C} (f : A * B -> C) (l : list A) (m : list B) :
  map f (flat_map (fun a => map (fun b => (a, b)) m) l)
  = flat_map (fun a => map (fun b => f (a, b)) m) l.
Proof.
  induction l as [|a rest IH]; simpl; [reflexivity|].
  now rewrite map_app, map_map, IH.
Qed.

Lemma pairs_of_length (config : pydict) :
  length (pairs_of config)
  = (length (permissions_of config) * length (reviewers_of config))%nat.
Proof.
  unfold pairs_of. apply flat_map_length_const. intros p _. apply length_map.
Qed.

Lemma pairs_of_In (config : pydict) (pair : json * json) :
  In pair (pairs_of config) ->
  In (fst pair) (permissions_of config) /\ In (snd pair) (reviewers_of config).
Proof.
  unfold pairs_of. rewrite in_flat_map. intros (p & Hp & H).
  apply in_map_iff in H as (r & <- & Hr). auto.
Qed.

Lemma steps_register_one (frame : nat) (t : Z) (pairs : list (json * json)) :
  Forall (fun pair => registers_one_job (expression_of (fst pair))) pairs ->
  forall (table : list Job) (log : list (Level * text)),
  exists added,
    fold_left (pair_step frame t) pairs (table, log)
    = (table ++ added,
       log ++ map (fun pair => scheduled_entry (fst pair) (snd pair)) pairs)
    /\ length added = length pairs
    /\ Forall (fun j => job_func j = JobClosure frame) added.
Proof.
  intros Hall. induction Hall as [|pair rest Hone _ IH]; intros table log.
  - exists []. simpl. rewrite !app_nil_r. auto.
  - destruct (Hone (JobClosure frame) t table) as (trigger & due & E).
    simpl fold_left. unfold pair_step at 2. simpl fst. simpl snd. rewrite E.
    destruct (IH (table ++ [{| job_trigger := trigger; job_next_run := due;
                               job_func := JobClosure frame |}])
                 (log ++ [scheduled_entry (fst pair) (snd pair)]))
      as (added & F & L & J).
    exists ({| job_trigger := trigger; job_next_run := due; job_func := JobClosure frame |}
            :: added).
    split; [rewrite F, <- !app_assoc; reflexivity|].
    split; [simpl; now rewrite L|].
    constructor; [reflexivity | exact J].
Qed.

(** C5, as the code has it.  On a validated configuration whose evaluations
    raise nothing outside [Exception], setup returns after one evaluation per
    (permission, reviewer) pair, in the order of the loops, each of the text
    made of the permission's schedule string and with the closure [job]; the
    job table it leaves is the one these evaluations leave, each run on the
    table the one before it left.  That recurrence strings are in the grammar
    decides nothing: the number of jobs is the number of pairs exactly when
    every evaluation returns having added one job, and then every job added
    calls [job] and the log has one "Scheduled review" line per pair. *)
Theorem C5_one_job_per_pair (config : pydict) (w : World) :
  validate_config config = Ok tt ->
  (forall p, In p (permissions_of config) -> eval_raises_Exception_on (expression_of p)) ->
  let run := schedule_reviews config w in
  let frame := length (w_frames w) in
  fst run = Ok tt
  /\ w_evaluated (snd run)
     = w_evaluated w ++ map (fun pair => expression_of (fst pair)) (pairs_of config)
  /\ length (pairs_of config)
     = (length (permissions_of config) * length (reviewers_of config))%nat
  /\ w_jobs (snd run)
     = fst (fold_left (pair_step frame (w_now w)) (pairs_of config) (w_jobs w, w_log w))
  /\ ((forall p, In p (permissions_of config) -> registers_one_job (expression_of p)) ->
      exists added,
        w_jobs (snd run) = w_jobs w ++ added
        /\ length added
           = (length (permissions_of config) * length (reviewers_of config))%nat
        /\ Forall (fun j => job_func j = JobClosure frame) added
        /\ w_log (snd run)
           = w_log w ++ map (fun pair => scheduled_entry (fst pair) (snd pair))
                          (pairs_of config)).
Proof.
  intros Hv Hexn run frame. subst run frame.
  assert (He : Forall (fun p => eval_raises_Exception_on (expression_of p))
                 (permissions_of config)) by (apply Forall_forall; exact Hexn).
  rewrite (schedule_reviews_world config w He Hv). simpl fst. simpl snd.
  destruct (setup_world_fields config w) as (_ & V & _).
  pose proof (setup_world_steps config w) as S.
  split; [reflexivity|].
  split; [rewrite V; unfold pairs_of; now rewrite map_flat_map_pairs|].
  split; [apply pairs_of_length|].
  split; [now rewrite <- S|].
  intros Hone.
  assert (Hall : Forall (fun pair => registers_one_job (expression_of (fst pair)))
                   (pairs_of config)).
  { apply Forall_forall. intros pair Hin. apply Hone. now apply pairs_of_In. }
  destruct (steps_register_one (length (w_frames w)) (w_now w) (pairs_of config) Hall
              (w_jobs w) (w_log w)) as (added & F & L & J).
  rewrite F in S. injection S as SJ SL.
  exists added. split; [exact SJ|]. split; [now rewrite L, pairs_of_length|].
  split; [exact J | exact SL].
Qed.

(** C6, as the code has it.  On a validated configuration whose evaluations
    raise nothing outside [Exception], setup returns, and every pair's text
    is evaluated, in the order of the loops, whatever the evaluations before
    it did.  A pair is skipped exactly when the evaluation of its text
    raises: the log then has a "Failed to schedule review" line naming the
    permission, the reviewer, the string and the exception, and a "Scheduled
    review" line otherwise; the grammar is not asked.  The job table is what
    the evaluations leave.  When an evaluation that raises leaves the table
    as it was and one that returns adds one job, these are the jobs of the
    pairs whose string was read. *)
Theorem C6_failed_schedule_skips_only_its_pairs (config : pydict) (w : World) :
  validate_config config = Ok tt ->
  (forall p, In p (permissions_of config) -> eval_raises_Exception_on (expression_of p)) ->
  let run := schedule_reviews config w in
  let frame := length (w_frames w) in
  fst run = Ok tt
  /\ w_evaluated (snd run)
     = w_evaluated w ++ map (fun pair => expression_of (fst pair)) (pairs_of config)
  /\ (w_jobs (snd run), w_log (snd run))
     = fold_left (pair_step frame (w_now w)) (pairs_of config) (w_jobs w, w_log w)
  /\ length (w_log (snd run)) = (length (w_log w) + length (pairs_of config))%nat
  /\ (forall parse failure,
        (forall p, In p (permissions_of config) ->
           eval_follows parse failure (schedule_text p)) ->
        w_jobs (snd run)
        = w_jobs w
          ++ flat_map (fun p => flat_map (fun _ => pair_jobs parse frame (w_now w) p)
                                  (reviewers_of config))
               (permissions_of config)
        /\ w_log (snd run)
           = w_log w
             ++ flat_map (fun p => map (pair_entry parse failure p) (reviewers_of config))
                  (permissions_of config)).
Proof.
  intros Hv Hexn run frame. subst run frame.
  assert (He : Forall (fun p => eval_raises_Exception_on (expression_of p))
                 (permissions_of config)) by (apply Forall_forall; exact Hexn).
  rewrite (schedule_reviews_world config w He Hv). simpl fst. simpl snd.
  destruct (setup_world_fields config w) as (_ & V & _).
  split; [reflexivity|].
  split; [rewrite V; unfold pairs_of; now rewrite map_flat_map_pairs|].
  split; [apply setup_world_steps|].
  split.
  - pose proof (setup_world_steps config w) as S.
    assert (G : forall pairs state,
              length (snd (fold_left (pair_step (length (w_frames w)) (w_now w)) pairs state))
              = (length (snd state) + length pairs)%nat).
    { induction pairs as [|pair rest IH]; intros state; simpl; [lia|].
      rewrite IH. unfold pair_step.
      destruct (eval_expr _ _ _ _) as [table outcome]. simpl. rewrite length_app. simpl. lia. }
    specialize (G (pairs_of config) (w_jobs w, w_log w)). rewrite <- S in G. exact G.
  - intros parse failure Hall.
    apply setup_world_follows. apply Forall_forall. exact Hall.
Qed.



(** ** What a registered job does when it is called *)

Lemma last_of_In {A} (l : list A) (x : A) : last_of l = Some x -> In x l.
Proof.
  induction l as [|y rest IH]; [discriminate|].
  rewrite last_of_cons. destruct (last_of rest) as [z|] eqn:E.
  - intros [= <-]. right. now apply IH.
  - intros [= <-]. now left.
Qed.

Lemma last_of_some {A} (l : list A) : l <> [] -> exists x, last_of l = Some x.
Proof.
  intros H. destruct (last_of l) as [x|] eqn:E; [eauto|].
  apply last_of_nil_iff in E. contradiction.
Qed.

(** When the loops are over and have run at all, the cells hold the last
    permission and the last reviewer of the configuration, and a closure over
    them can be called. *)
Lemma final_cells_ready (config : pydict) :
  Validated config ->
  permissions_of config <> [] ->
  reviewers_of config <> [] ->
  exists p r,
    last_of (permissions_of config) = Some p
    /\ last_of (reviewers_of config) = Some r
    /\ final_cells config
       = {| f_config := config; f_permission := Some p; f_reviewer := Some r |}
    /\ frame_ready (final_cells config) = true.
Proof.
  intros V Hp Hr.
  destruct (last_of_some _ Hp) as [p Ep]. destruct (last_of_some _ Hr) as [r Er].
  exists p, r. split; [exact Ep|]. split; [exact Er|].
  assert (F : final_cells config
              = {| f_config := config; f_permission := Some p; f_reviewer := Some r |}).
  { unfold final_cells. rewrite Ep, Er. now destruct (permissions_of config). }
  split; [exact F|]. rewrite F. unfold frame_ready. simpl.
  pose proof (proj1 (Forall_forall _ _) (v_each_permission _ V) p (last_of_In _ _ Ep)) as Cp.
  pose proof (proj1 (Forall_forall _ _) (v_each_reviewer _ V) r (last_of_In _ _ Er)) as Cr.
  destruct (check_permission_fields _ Cp) as (pd & s & -> & Hd & Hdet & _).
  destruct (check_reviewer_fields _ Cr) as (rd & -> & Hn & He).
  simpl. rewrite Hd, Hdet, Hn, He. simpl.
  destruct (v_server _ V) as [sv Es]. destruct (v_port _ V) as (pv & n & Eq & _).
  destruct (v_sender _ V) as (se & Ee & _).
  unfold dict_mem. now rewrite Es, Eq, Ee.
Qed.

Lemma nth_error_last {A} (l : list A) (x : A) : nth_error (l ++ [x]) (length l) = Some x.
Proof. induction l as [|y rest IH]; [reflexivity | exact IH]. Qed.

(** Every closure made by one call of [schedule_reviews] reads the same
    cells: called after setup, it calls [create_review_task] with the last
    permission and the last reviewer of the configuration, whichever pair it
    was registered for. *)
Lemma job_uses_last_pair (config : pydict) (w w' : World) :
  validate_config config = Ok tt ->
  permissions_of config <> [] ->
  reviewers_of config <> [] ->
  nth_error (w_frames w') (length (w_frames w))
  = nth_error (w_frames (setup_world config w)) (length (w_frames w)) ->
  exists p r,
    last_of (permissions_of config) = Some p
    /\ last_of (reviewers_of config) = Some r
    /\ job (length (w_frames w)) w'
       = create_review_task p r (field (JDict config) "smtp_server")
           (field (JDict config) "smtp_port") (field (JDict config) "sender_email") w'.
Proof.
  intros Hv Hp Hr Hnth. apply validate_config_inv in Hv.
  destruct (final_cells_ready config Hv Hp Hr) as (p & r & Ep & Er & F & R).
  exists p, r. split; [exact Ep|]. split; [exact Er|].
  destruct (setup_world_fields config w) as (Fs & _).
  rewrite Fs, nth_error_last in Hnth.
  rewrite (job_calls_task _ _ w' Hnth R). now rewrite F.
Qed.


(** ** Test-email mode *)

Lemma send_test_email_cases (smtp_server smtp_port sender_email : json) (w : World) :
  let m := test_mail smtp_server smtp_port sender_email in
  let w1 := set_sent (w_sent w ++ [(m, smtp (length (w_sent w)) m)]) w in
  send_test_email smtp_server smtp_port sender_email w =
  match smtp (length (w_sent w)) m with
  | None =>
      (Ok tt,
       set_console (w_console w ++ [[Lit "Test email sent successfully. Check your inbox."]])
         (set_log (w_log w ++ [(INFO, [Lit "Email sent successfully to "; Val sender_email])])
            w1))
  | Some e =>
      let w2 := after_failed_send e sender_email w1 in
      if is_Exception e
      then (Ok tt,
            set_log (w_log w2 ++ [(ERROR, [Lit "Failed to send test email: "; Exc e])])
              (set_console (w_console w2 ++ [[Lit "Failed to send test email: "; Exc e]]) w2))
      else (Raise e, w2)
  end.
Proof.
  intros m w1. subst w1.
  unfold send_test_email, try_except.
  unfold bind at 1. rewrite send_email_cases. fold (test_mail smtp_server smtp_port sender_email).
  fold m. unfold after_failed_send.
  destruct (smtp (length (w_sent w)) m) as [e|]; [|reflexivity].
  destruct (is_Exception e); reflexivity.
Qed.

Lemma load_config_ok (path : string) (config : pydict) (w : World) :
  read_json path = Ok config ->
  load_config path w
  = (Ok config, set_log (w_log w ++ [(INFO, [Lit "Configuration loaded from ";
                                             Val (JStr path)])]) w).
Proof. intros H. unfold load_config. rewrite H. reflexivity. Qed.

(** The [try] block of [main] in test-email mode. *)
Lemma main_body_test_mode (rounds : nat) (path : string) (config : pydict) (w : World) :
  read_json path = Ok config ->
  validate_config config = Ok tt ->
  main_body rounds (test_args path) w
  = (send_test_email (field (JDict config) "smtp_server") (field (JDict config) "smtp_port")
       (field (JDict config) "sender_email") ;; ret Finished)
      (set_log (w_log w ++ [(INFO, [Lit "Configuration loaded from "; Val (JStr path)])]) w).
Proof.
  intros Hread Hv. pose proof (validate_config_inv _ Hv) as V.
  destruct (v_server _ V) as [sv Es]. destruct (v_port _ V) as (pv & n & Eq & _).
  destruct (v_sender _ V) as (se & Ee & _).
  unfold main_body. simpl args_config. simpl args_test_email.
  rewrite (bind_ok _ _ w _ config (load_config_ok path config w Hread)).
  rewrite (bind_ok _ _ _ _ tt) by (unfold lift; now rewrite Hv).
  cbv iota.
  rewrite (bind_ok _ _ _ _ (field (JDict config) "smtp_server"))
    by (unfold lift; rewrite subscript_field; [reflexivity | apply dict_mem_get; eauto]).
  rewrite (bind_ok _ _ _ _ (field (JDict config) "smtp_port"))
    by (unfold lift; rewrite subscript_field; [reflexivity | apply dict_mem_get; eauto]).
  rewrite (bind_ok _ _ _ _ (field (JDict config) "sender_email"))
    by (unfold lift; rewrite subscript_field; [reflexivity | apply dict_mem_get; eauto]).
  reflexivity.
Qed.

Lemma not_Exception_uncaught (e : Exn) :
  is_Exception e = false ->
  is_FileNotFoundError e = false /\ is_JSONDecodeError e = false /\ is_ValueError e = false.
Proof. destruct e; try discriminate; auto. Qed.

(** [main] in test-email mode, by the outcome of the transport. *)
Lemma main_test_mode (rounds : nat) (path : string) (config : pydict) (w : World) :
  read_json path = Ok config ->
  validate_config config = Ok tt ->
  let m := config_test_mail config in
  let w0 := set_log (w_log w ++ [(INFO, [Lit "Configuration loaded from ";
                                         Val (JStr path)])]) w in
  let w1 := set_sent (w_sent w ++ [(m, smtp (length (w_sent w)) m)]) w0 in
  main rounds (test_args path) w =
  match smtp (length (w_sent w)) m with
  | None =>
      (Exit 0,
       set_console (w_console w ++ [[Lit "Test email sent successfully. Check your inbox."]])
         (set_log (w_log w0 ++ [(INFO, [Lit "Email sent successfully to "; Val (mail_to m)])])
            w1))
  | Some e =>
      let w2 := after_failed_send e (mail_to m) w1 in
      if is_Exception e
      then (Exit 0,
            set_log (w_log w2 ++ [(ERROR, [Lit "Failed to send test email: "; Exc e])])
              (set_console (w_console w2 ++ [[Lit "Failed to send test email: "; Exc e]]) w2))
      else (Uncaught e, w2)
  end.
Proof.
  intros Hread Hv m w0 w1. subst w1.
  unfold main. rewrite (main_body_test_mode rounds path config w Hread Hv).
  fold w0. unfold bind. rewrite send_test_email_cases.
  fold (config_test_mail config). fold m.
  change (w_sent w0) with (w_sent w). change (w_console w0) with (w_console w).
  change (mail_to m) with (field (JDict config) "sender_email").
  destruct (smtp (length (w_sent w)) m) as [e|]; [|reflexivity].
  cbv zeta. destruct (is_Exception e) eqn:E; [reflexivity|].
  destruct (not_Exception_uncaught e E) as (E1 & E2 & E3).
  now rewrite E1, E2, E3, E.
Qed.

(** C8. In test-email mode on a valid configuration the transport is used
    exactly once, for a message from the configured sender to that same
    address; no job is registered, no text is evaluated, no round of the
    polling loop is run, and [main] does not end up polling. *)
Theorem C8_test_mode_sends_once_to_the_sender (rounds : nat) (path : string)
  (config : pydict) (w : World) :
  read_json path = Ok config ->
  validate_config config = Ok tt ->
  w_sent (snd (main rounds (test_args path) w))
  = w_sent w ++ [(config_test_mail config, smtp (length (w_sent w)) (config_test_mail config))]
  /\ (exists s, dict_get "sender_email" config = Some (JStr s)
                /\ mail_to (config_test_mail config) = JStr s
                /\ mail_from (config_test_mail config) = JStr s)
  /\ w_jobs (snd (main rounds (test_args path) w)) = w_jobs w
  /\ w_frames (snd (main rounds (test_args path) w)) = w_frames w
  /\ w_evaluated (snd (main rounds (test_args path) w)) = w_evaluated w
  /\ w_ticks (snd (main rounds (test_args path) w)) = w_ticks w
  /\ fst (main rounds (test_args path) w) <> Polling.
Proof.
  intros Hread Hv.
  assert (Hs : exists s, dict_get "sender_email" config = Some (JStr s)
                /\ mail_to (config_test_mail config) = JStr s
                /\ mail_from (config_test_mail config) = JStr s).
  { destruct (v_sender _ (validate_config_inv _ Hv)) as (s & Es & _).
    exists s. unfold config_test_mail, test_mail. simpl.
    rewrite (field_dict _ _ _ Es). auto. }
  rewrite (main_test_mode rounds path config w Hread Hv).
  destruct (smtp (length (w_sent w)) (config_test_mail config)) as [e|] eqn:S.
  - unfold after_failed_send.
    destruct (is_Exception e); destruct (is_SMTPException e); cbn;
      (split; [reflexivity|]); (split; [exact Hs|]); repeat split; discriminate.
  - cbn. (split; [reflexivity|]); (split; [exact Hs|]); repeat split; discriminate.
Qed.

(** C10. In test-email mode on a valid configuration, when the transport
    raises an exception for the one message, [send_test_email] catches it,
    prints and logs "Failed to send test email", and returns: [main] reaches
    its end and the process exits with status 0. *)
Theorem C10_test_mode_exits_zero_when_the_send_fails (rounds : nat) (path : string)
  (config : pydict) (w : World) (e : Exn) :
  read_json path = Ok config ->
  validate_config config = Ok tt ->
  smtp (length (w_sent w)) (config_test_mail config) = Some e ->
  is_Exception e = true ->
  fst (main rounds (test_args path) w) = Exit 0
  /\ w_console (snd (main rounds (test_args path) w))
     = w_console w ++ [[Lit "Failed to send test email: "; Exc e]]
  /\ last (w_log (snd (main rounds (test_args path) w))) (INFO, [])
     = (ERROR, [Lit "Failed to send test email: "; Exc e])
  /\ w_sent (snd (main rounds (test_args path) w))
     = w_sent w ++ [(config_test_mail config, Some e)].
Proof.
  intros Hread Hv S E.
  rewrite (main_test_mode rounds path config w Hread Hv).
  rewrite S. cbv zeta. rewrite E.
  unfold after_failed_send. destruct (is_SMTPException e); cbn;
    rewrite ?last_last; auto.
Qed.

(** ** From setup into the polling loop *)

Lemma callable_more_frames (fs : list Frame) (cells : Frame) (f : Callable) :
  callable fs f = true -> callable (fs ++ [cells]) f = true.
Proof.
  destruct f as [frame|outcome]; simpl; [|discriminate].
  destruct (nth_error fs frame) as [c|] eqn:E; [|discriminate].
  rewrite nth_error_app1 by (apply nth_error_Some; congruence).
  now rewrite E.
Qed.

Lemma setup_jobs_closure (parse : string -> option Trigger) (frame : nat) (t : Z)
  (permissions reviewers : list json) (j : Job) :
  In j (flat_map (fun p => flat_map (fun _ => pair_jobs parse frame t p) reviewers) permissions) ->
  job_func j = JobClosure frame /\ permissions <> [] /\ reviewers <> [].
Proof.
  intros H. apply in_flat_map in H as (p & Hp & H).
  apply in_flat_map in H as (r & Hr & H).
  unfold pair_jobs in H. destruct (parse (schedule_text p)); [|contradiction].
  destruct H as [<- | []]. simpl.
  split; [reflexivity|]. split; intros ->; contradiction.
Qed.

(** Setup leaves a table every job of which can be called. *)
Lemma setup_callable (parse : string -> option Trigger) (failure : string -> Exn)
  (config : pydict) (w : World) :
  validate_config config = Ok tt ->
  Forall (fun p => eval_follows parse failure (schedule_text p)) (permissions_of config) ->
  callable_jobs w = true ->
  callable_jobs (setup_world config w) = true.
Proof.
  intros Hv Hf Hc. pose proof (validate_config_inv _ Hv) as V.
  destruct (setup_world_follows parse failure config w Hf) as [J _].
  destruct (setup_world_fields config w) as (F & _).
  unfold callable_jobs. rewrite J, F, forallb_app. apply andb_true_iff. split.
  - apply forallb_forall. intros j Hj. apply callable_more_frames.
    now apply callable_jobs_In.
  - apply forallb_forall. intros j Hj.
    apply setup_jobs_closure in Hj as (Hj & Hp & Hr).
    rewrite Hj. simpl. rewrite nth_error_last.
    now destruct (final_cells_ready config V Hp Hr) as (_ & _ & _ & _ & _ & R).
Qed.

(** In scheduling mode on a valid configuration [main] sets the schedule up
    and is still polling after any number of rounds, whatever the transport
    raises meanwhile and whichever schedule strings were refused. *)
Theorem main_keeps_polling (parse : string -> option Trigger) (failure : string -> Exn)
  (rounds : nat) (path : string) (config : pydict) (w : World) :
  read_json path = Ok config ->
  validate_config config = Ok tt ->
  (forall p, In p (permissions_of config) -> eval_follows parse failure (schedule_text p)) ->
  (forall s, is_Exception (failure s) = true) ->
  smtp_raises_Exception ->
  callable_jobs w = true ->
  fst (main rounds (schedule_args path) w) = Polling
  /\ w_ticks (snd (main rounds (schedule_args path) w)) = (w_ticks w + rounds)%nat.
Proof.
  intros Hread Hv Hall Hexn Hsmtp Hc.
  assert (Hf : Forall (fun p => eval_follows parse failure (schedule_text p))
                 (permissions_of config)) by (apply Forall_forall; exact Hall).
  assert (He : Forall (fun p => eval_raises_Exception_on (expression_of p))
                 (permissions_of config)).
  { apply Forall_forall. intros p Hp.
    apply (follows_raises_Exception parse failure); auto. }
  set (w0 := set_log (w_log w ++ [(INFO, [Lit "Configuration loaded from ";
                                          Val (JStr path)])]) w).
  assert (Hc0 : callable_jobs w0 = true) by exact Hc.
  pose proof (setup_callable parse failure config w0 Hv Hf Hc0) as Hc1.
  destruct (poll_ok rounds (setup_world config w0) Hsmtp Hc1) as (w2 & E & T & _).
  assert (Hmain : main_body rounds (schedule_args path) w = (Ok StillPolling, w2)).
  { unfold main_body. simpl args_config. simpl args_test_email.
    rewrite (bind_ok _ _ w _ config (load_config_ok path config w Hread)).
    rewrite (bind_ok _ _ _ _ tt) by (unfold lift; now rewrite Hv).
    cbv iota.
    rewrite (bind_ok _ _ _ _ tt (schedule_reviews_world config _ He Hv)).
    exact E. }
  unfold main. rewrite Hmain. simpl. split; [reflexivity|].
  rewrite T. destruct (setup_world_fields config w0) as (_ & _ & _ & _ & _ & T0).
  rewrite T0. reflexivity.
Qed.

End Properties.

(** ** Validation against the schema *)

Lemma check_permission_ok (v : json) : check_permission v = Ok tt <-> permission_ok v = true.
Proof.
  destruct v as [| | | | | |p]; simpl; try (split; discriminate).
  unfold is_mapping_at, is_string_at, subscript.
  destruct (require_keys _ required_permission_keys p) as [[]|e] eqn:K; simpl.
  - apply require_keys_ok in K.
    inversion K as [|? ? Hd K1]; subst. inversion K1 as [|? ? Hp K2]; subst.
    inversion K2 as [|? ? Hs _]; subst. rewrite Hd. simpl.
    apply dict_mem_get in Hp as [details Hp]. apply dict_mem_get in Hs as [schedule Hs].
    rewrite Hp, Hs. simpl.
    destruct details; simpl; try (split; discriminate);
      destruct schedule; simpl; split; auto; discriminate.
  - split; [discriminate|]. intros H.
    assert (F : Forall (fun k => dict_mem k p = true) required_permission_keys).
    { apply andb_true_iff in H as [H Hs]. apply andb_true_iff in H as [Hd Hp].
      repeat constructor; auto; unfold dict_mem.
      - destruct (dict_get "permission_details" p); [reflexivity | discriminate].
      - destruct (dict_get "review_schedule" p); [reflexivity | discriminate]. }
    apply (require_keys_ok "Missing required key in permission: ") in F. congruence.
Qed.

Lemma check_reviewer_ok (v : json) : check_reviewer v = Ok tt <-> reviewer_ok v = true.
Proof.
  destruct v as [| | | | | |r]; simpl; try (split; discriminate).
  unfold is_address_at, subscript.
  destruct (require_keys _ required_reviewer_keys r) as [[]|e] eqn:K; simpl.
  - apply require_keys_ok in K.
    inversion K as [|? ? Hn K1]; subst. inversion K1 as [|? ? He _]; subst.
    rewrite Hn. simpl. apply dict_mem_get in He as [email He]. rewrite He. simpl.
    destruct email; simpl; try (split; discriminate).
    destruct (str_in "@" s); simpl; split; auto; discriminate.
  - split; [discriminate|]. intros H.
    assert (F : Forall (fun k => dict_mem k r = true) required_reviewer_keys).
    { apply andb_true_iff in H as [Hn He].
      repeat constructor; auto; unfold dict_mem.
      destruct (dict_get "email" r); [reflexivity | discriminate]. }
    apply (require_keys_ok "Missing required key in reviewer: ") in F. congruence.
Qed.

Lemma rfor_forallb {A} (body : A -> Result unit) (ok : A -> bool) (l : list A) :
  (forall x, body x = Ok tt <-> ok x = true) ->
  (rfor l body = Ok tt <-> forallb ok l = true).
Proof.
  intros H. rewrite rfor_ok, forallb_forall, Forall_forall.
  split; intros G x Hx; apply H; auto.
Qed.

Lemma check_permissions_ok (d : pydict) :
  check_permissions d = Ok tt <-> sequence_of permission_ok "permissions_to_review" d = true.
Proof.
  unfold check_permissions, sequence_of, subscript.
  destruct (dict_get "permissions_to_review" d) as [v|]; simpl; [|split; discriminate].
  destruct v; simpl; try (split; discriminate).
  apply rfor_forallb, check_permission_ok.
Qed.

Lemma check_reviewers_ok (d : pydict) :
  check_reviewers d = Ok tt <-> sequence_of reviewer_ok "reviewers" d = true.
Proof.
  unfold check_reviewers, sequence_of, subscript.
  destruct (dict_get "reviewers" d) as [v|]; simpl; [|split; discriminate].
  destruct v; simpl; try (split; discriminate).
  apply rfor_forallb, check_reviewer_ok.
Qed.

Lemma check_smtp_server_ok (d : pydict) :
  check_smtp_server d = Ok tt <-> is_string_at "smtp_server" d = true.
Proof.
  unfold check_smtp_server, is_string_at, subscript.
  destruct (dict_get "smtp_server" d) as [v|]; simpl; [|split; discriminate].
  destruct v; simpl; split; auto; discriminate.
Qed.

Lemma check_smtp_port_ok (d : pydict) : check_smtp_port d = Ok tt <-> port_ok d = true.
Proof.
  rewrite check_smtp_port_cases. unfold port_ok.
  destruct (dict_get "smtp_port" d) as [v|]; [|split; discriminate].
  destruct (py_int v) as [n|e].
  - destruct ((0 <? n)%Z && (n <? 65535)%Z); split; auto; discriminate.
  - destruct (is_ValueError e); split; discriminate.
Qed.

Lemma check_sender_email_ok (d : pydict) :
  check_sender_email d = Ok tt <-> is_address_at "sender_email" d = true.
Proof.
  unfold check_sender_email, is_address_at, subscript.
  destruct (dict_get "sender_email" d) as [v|]; simpl; [|split; discriminate].
  destruct v; simpl; try (split; auto; discriminate).
  destruct (str_in "@" s); simpl; split; auto; discriminate.
Qed.

Lemma check_required_keys_ok (d : pydict) :
  check_required_keys d = Ok tt <-> forallb (fun key => dict_mem key d) required_keys = true.
Proof.
  unfold check_required_keys. rewrite require_keys_ok, forallb_forall, Forall_forall.
  reflexivity.
Qed.

(** Validation accepts exactly the documents that satisfy the six rules of
    the schema. *)
Theorem validate_config_accepts_the_schema (d : pydict) :
  validate_config d = Ok tt <-> schema_ok d = true.
Proof.
  unfold schema_ok. rewrite !andb_true_iff.
  rewrite <- check_required_keys_ok, <- check_permissions_ok, <- check_reviewers_ok,
    <- check_smtp_server_ok, <- check_smtp_port_ok, <- check_sender_email_ok.
  unfold validate_config.
  destruct (check_required_keys d) as [[]|]; simpl; [|intuition discriminate].
  destruct (check_permissions d) as [[]|]; simpl; [|intuition discriminate].
  destruct (check_reviewers d) as [[]|]; simpl; [|intuition discriminate].
  destruct (check_smtp_server d) as [[]|]; simpl; [|intuition discriminate].
  destruct (check_smtp_port d) as [[]|]; simpl; [|intuition discriminate].
  intuition.
Qed.

(** ** The reference runtime *)

Lemma drop_prefix_app (p s : string) : drop_prefix p (p ++ s) = Some s.
Proof.
  induction p as [|c p IH]; simpl; [now destruct s|].
  now rewrite Ascii.eqb_refl.
Qed.

Lemma list_ascii_of_string_app (s t : string) :
  list_ascii_of_string (s ++ t) = list_ascii_of_string s ++ list_ascii_of_string t.
Proof. induction s as [|c s IH]; simpl; [reflexivity | now rewrite IH]. Qed.

Lemma string_of_list_ascii_app (a b : list ascii) :
  string_of_list_ascii (a ++ b) = (string_of_list_ascii a ++ string_of_list_ascii b)%string.
Proof. induction a as [|c a IH]; simpl; [reflexivity | now rewrite IH]. Qed.

Lemma drop_suffix_app (p s : string) : drop_suffix p (s ++ p) = Some s.
Proof.
  unfold drop_suffix.
  rewrite list_ascii_of_string_app, rev_app_distr, string_of_list_ascii_app, drop_prefix_app.
  now rewrite list_ascii_of_string_of_list_ascii, rev_involutive, string_of_list_ascii_of_string.
Qed.

(** The evaluator of the reference runtime does, on every schedule string,
    what the parser of the recurrence grammar says. *)
Lemma reference_eval_follows (files : list (string * Result pydict)) (s : string) :
  @eval_follows (reference_runtime files) parse_schedule syntax_error s.
Proof.
  intros f t table. unfold eval_expr, reference_runtime, grammar_eval.
  rewrite (drop_prefix_app "schedule." (s ++ ".do(job)")), drop_suffix_app.
  now destruct (parse_schedule s).
Qed.

Lemma reference_smtp_raises_Exception (files : list (string * Result pydict)) :
  @smtp_raises_Exception (reference_runtime files).
Proof.
  intros n m e. unfold smtp, reference_runtime, flaky_smtp.
  destruct (n mod 3)%nat as [|[|[|k]]]; intros [= <-] || discriminate; reflexivity.
Qed.

Lemma reference_eval_raises_Exception (files : list (string * Result pydict)) :
  @eval_raises_Exception (reference_runtime files).
Proof.
  intros text f t table e. unfold eval_expr, reference_runtime, grammar_eval.
  match goal with |- context [match ?x with Some _ => _ | None => _ end] => destruct x end;
    simpl; [discriminate | intros [= <-]; reflexivity].
Qed.

(** ** Validation: the required keys and the port *)

Lemma find_first {A} (f : A -> bool) (l : list A) (x : A) :
  find f l = Some x ->
  exists before after,
    l = before ++ x :: after /\ Forall (fun y => f y = false) before /\ f x = true.
Proof.
  induction l as [|y rest IH]; simpl; [discriminate|].
  destruct (f y) eqn:E.
  - intros [= <-]. exists [], rest. auto.
  - intros H. destruct (IH H) as (before & after & -> & Hb & Hx).
    exists (y :: before), after. auto.
Qed.

Lemma find_exists {A} (f : A -> bool) (l : list A) (x : A) :
  In x l -> f x = true -> exists y, find f l = Some y.
Proof.
  induction l as [|z rest IH]; simpl; [contradiction|].
  intros [-> | H] Hx.
  - rewrite Hx. eauto.
  - destruct (f z); eauto.
Qed.

Lemma rfor_raises {A} (l : list A) (body : A -> Result unit) (e : Exn) :
  rfor l body = Raise e -> exists x, In x l /\ body x = Raise e.
Proof.
  induction l as [|x rest IH]; simpl; [discriminate|].
  destruct (body x) as [[]|e'] eqn:E; simpl.
  - intros H. destruct (IH H) as (y & Hy & Ey). eauto.
  - intros [= <-]. eauto.
Qed.

Lemma not_ok_raises (r : Result unit) : r <> Ok tt -> exists e, r = Raise e.
Proof. destruct r as [[]|e]; [contradiction | eauto]. Qed.

Lemma check_required_keys_error (d : pydict) (e : Exn) :
  check_required_keys d = Raise e -> rule_error 1 e.
Proof.
  unfold check_required_keys. rewrite require_keys_first_missing.
  destruct (first_missing required_keys d) as [k|] eqn:F; [|discriminate].
  intros [= <-]. exists k. split; [|reflexivity].
  unfold first_missing in F. now apply find_some in F.
Qed.

Lemma check_permission_error (v : json) (e : Exn) :
  check_permission v = Raise e ->
  e = ValueError "Each permission entry in permissions_to_review must be a dictionary."
  \/ (exists key, In key required_permission_keys
                  /\ e = ValueError ("Missing required key in permission: " ++ key))
  \/ e = ValueError "permission_details must be a dictionary"
  \/ e = ValueError "review_schedule must be a string".
Proof.
  destruct v as [| | | | | |p]; simpl; try (intros [= <-]; auto).
  destruct (require_keys _ required_permission_keys p) as [[]|e'] eqn:K; simpl.
  - apply require_keys_ok in K.
    inversion K as [|? ? _ K1]; subst. inversion K1 as [|? ? Hp K2]; subst.
    inversion K2 as [|? ? Hs _]; subst.
    rewrite !subscript_field by assumption. simpl.
    destruct (is_dict _); simpl; [|intros [= <-]; auto].
    destruct (is_str _); simpl; [discriminate | intros [= <-]; auto].
  - intros [= <-]. right. left.
    rewrite require_keys_first_missing in K.
    destruct (first_missing required_permission_keys p) as [k|] eqn:F; [|discriminate].
    injection K as <-. exists k. split; [|reflexivity].
    unfold first_missing in F. now apply find_some in F.
Qed.

Lemma check_reviewer_error (v : json) (e : Exn) :
  check_reviewer v = Raise e ->
  e = ValueError "Each reviewer entry in reviewers must be a dictionary."
  \/ (exists key, In key required_reviewer_keys
                  /\ e = ValueError ("Missing required key in reviewer: " ++ key))
  \/ e = ValueError "Reviewer email must be a valid email address.".
Proof.
  destruct v as [| | | | | |r]; simpl; try (intros [= <-]; auto).
  destruct (require_keys _ required_reviewer_keys r) as [[]|e'] eqn:K; simpl.
  - apply require_keys_ok in K.
    inversion K as [|? ? _ K1]; subst. inversion K1 as [|? ? He _]; subst.
    rewrite !subscript_field by assumption. simpl.
    destruct (not_an_address _); [intros [= <-]; auto | discriminate].
  - intros [= <-]. right. left.
    rewrite require_keys_first_missing in K.
    destruct (first_missing required_reviewer_keys r) as [k|] eqn:F; [|discriminate].
    injection K as <-. exists k. split; [|reflexivity].
    unfold first_missing in F. now apply find_some in F.
Qed.

Lemma check_permissions_error (d : pydict) (e : Exn) :
  dict_mem "permissions_to_review" d = true ->
  check_permissions d = Raise e -> rule_error 2 e.
Proof.
  intros Hk P. unfold check_permissions in P.
  rewrite !subscript_field in P by assumption.
  destruct (field (JDict d) "permissions_to_review") as [| | | | |items|];
    simpl in P; try (injection P as <-; left; reflexivity).
  apply rfor_raises in P as (x & _ & Ex).
  destruct (check_permission_error x e Ex) as [H | [H | [H | H]]]; simpl; auto.
Qed.

Lemma check_reviewers_error (d : pydict) (e : Exn) :
  dict_mem "reviewers" d = true ->
  check_reviewers d = Raise e -> rule_error 3 e.
Proof.
  intros Hk R. unfold check_reviewers in R.
  rewrite !subscript_field in R by assumption.
  destruct (field (JDict d) "reviewers") as [| | | | |items|];
    simpl in R; try (injection R as <-; left; reflexivity).
  apply rfor_raises in R as (x & _ & Ex).
  destruct (check_reviewer_error x e Ex) as [H | [H | H]]; simpl; auto.
Qed.

Lemma check_smtp_server_error (d : pydict) (e : Exn) :
  dict_mem "smtp_server" d = true ->
  check_smtp_server d = Raise e -> rule_error 4 e.
Proof.
  intros Hk S. unfold check_smtp_server in S.
  rewrite subscript_field in S by assumption. simpl in S.
  destruct (is_str _); simpl in S; [discriminate | injection S as <-; reflexivity].
Qed.

Lemma check_sender_email_error (d : pydict) (e : Exn) :
  dict_mem "sender_email" d = true ->
  check_sender_email d = Raise e -> rule_error 6 e.
Proof.
  intros Hk S. unfold check_sender_email in S.
  rewrite subscript_field in S by assumption. simpl in S.
  destruct (not_an_address _); [injection S as <-; reflexivity | discriminate].
Qed.

Lemma check_required_keys_in_dict (d : pydict) :
  check_required_keys_in (JDict d) = check_required_keys d.
Proof.
  unfold check_required_keys_in, check_required_keys.
  induction required_keys as [|key rest IH]; [reflexivity|].
  simpl rfor. unfold require_keys; fold require_keys. simpl.
  destruct (dict_mem key d); simpl; [exact IH | reflexivity].
Qed.

Lemma validate_document_dict (d : pydict) : validate_document (JDict d) = validate_config d.
Proof. unfold validate_document, validate_config. now rewrite check_required_keys_in_dict. Qed.

Lemma subscript_value_other (v : json) (k : string) :
  is_dict v = false -> exists msg, subscript_value v k = Raise (TypeError msg).
Proof. destruct v; simpl; try discriminate; eauto. Qed.

(** A value that is no dictionary is never accepted: the last statement of
    [validate_document] on such a value is not reached. *)
Lemma validate_document_other (v : json) : is_dict v = false -> validate_document v <> Ok tt.
Proof.
  intros D. unfold validate_document.
  destruct (check_required_keys_in v) as [[]|e]; simpl; [|discriminate].
  destruct (subscript_value_other v "permissions_to_review" D) as [msg S].
  destruct v; try discriminate D; rewrite S; discriminate.
Qed.

(** C7, as the code has it, on a document that is a JSON object.  A document
    that lacks one of the five required keys is refused with a [ValueError]
    whose message names the first key missing in the order of the rule: every
    required key before it is present.  The rules are checked in the order of
    the schema and the first one violated decides: when no rule is violated
    validation returns, and otherwise the error raised is one of the errors
    of the first violated rule, whatever the later rules would say.  For the
    port rule this is stated where [int()] returns or raises a [ValueError]. *)
Theorem C7_first_missing_key_is_named (config : pydict) :
  validate_document (JDict config) = validate_config config
  /\ (forall k, In k required_keys -> dict_mem k config = false ->
        exists key before after,
          required_keys = before ++ key :: after
          /\ Forall (fun x => dict_mem x config = true) before
          /\ dict_mem key config = false
          /\ validate_config config
             = Raise (ValueError ("Missing required configuration key: " ++ key)))
  /\ (first_violated (schema_checks config) = None -> validate_config config = Ok tt)
  /\ (forall rule, first_violated (schema_checks config) = Some rule -> rule <> 5%nat ->
        exists e, validate_config config = Raise e /\ rule_error rule e)
  /\ (first_violated (schema_checks config) = Some 5%nat ->
      forall v, dict_get "smtp_port" config = Some v ->
        (forall e, py_int v = Raise e -> is_ValueError e = true) ->
        validate_config config = Raise (ValueError port_message)).
Proof.
  split; [apply validate_document_dict|]. split.
  { intros k Hin Hk.
    destruct (find_exists (fun key => negb (dict_mem key config)) required_keys k Hin)
      as [key Hfind]; [now rewrite Hk|].
    destruct (find_first _ _ _ Hfind) as (before & after & E & Hb & Hkey).
    exists key, before, after. split; [exact E|]. split.
    - eapply Forall_impl; [|exact Hb]. intros x Hx. now apply negb_false_iff in Hx.
    - split; [now apply negb_true_iff in Hkey|].
      unfold validate_config, check_required_keys.
      rewrite require_keys_first_missing. unfold first_missing. now rewrite Hfind. }
  unfold schema_checks, first_violated, validate_config.
  destruct (forallb (fun key => dict_mem key config) required_keys) eqn:B1.
  2:{ destruct (not_ok_raises (check_required_keys config)) as [e E].
      { intros H. apply check_required_keys_ok in H. congruence. }
      rewrite E. simpl. split; [discriminate|]. split; [|discriminate].
      intros rule [= <-] _. exists e. split; [reflexivity|].
      now apply check_required_keys_error in E. }
  pose proof (proj2 (check_required_keys_ok config) B1) as K. rewrite K. simpl rbind.
  pose proof (proj1 (forallb_forall _ _) B1) as Keys.
  destruct (sequence_of permission_ok "permissions_to_review" config) eqn:B2.
  2:{ destruct (not_ok_raises (check_permissions config)) as [e E].
      { intros H. apply check_permissions_ok in H. congruence. }
      rewrite E. simpl. split; [discriminate|]. split; [|discriminate].
      intros rule [= <-] _. exists e. split; [reflexivity|].
      apply (check_permissions_error config e); [apply Keys; simpl; tauto | exact E]. }
  rewrite (proj2 (check_permissions_ok config) B2). simpl rbind.
  destruct (sequence_of reviewer_ok "reviewers" config) eqn:B3.
  2:{ destruct (not_ok_raises (check_reviewers config)) as [e E].
      { intros H. apply check_reviewers_ok in H. congruence. }
      rewrite E. simpl. split; [discriminate|]. split; [|discriminate].
      intros rule [= <-] _. exists e. split; [reflexivity|].
      apply (check_reviewers_error config e); [apply Keys; simpl; tauto | exact E]. }
  rewrite (proj2 (check_reviewers_ok config) B3). simpl rbind.
  destruct (is_string_at "smtp_server" config) eqn:B4.
  2:{ destruct (not_ok_raises (check_smtp_server config)) as [e E].
      { intros H. apply check_smtp_server_ok in H. congruence. }
      rewrite E. simpl. split; [discriminate|]. split; [|discriminate].
      intros rule [= <-] _. exists e. split; [reflexivity|].
      apply (check_smtp_server_error config e); [apply Keys; simpl; tauto | exact E]. }
  rewrite (proj2 (check_smtp_server_ok config) B4). simpl rbind.
  destruct (port_ok config) eqn:B5.
  2:{ simpl. split; [discriminate|]. split; [intros rule [= <-] H; now contradiction H|].
      intros _ v Hv Hint. rewrite check_smtp_port_cases, Hv.
      unfold port_ok in B5. rewrite Hv in B5.
      destruct (py_int v) as [n|e] eqn:I.
      - rewrite B5. reflexivity.
      - rewrite (Hint e eq_refl). reflexivity. }
  rewrite (proj2 (check_smtp_port_ok config) B5). simpl rbind.
  destruct (is_address_at "sender_email" config) eqn:B6.
  2:{ destruct (not_ok_raises (check_sender_email config)) as [e E].
      { intros H. apply check_sender_email_ok in H. congruence. }
      rewrite E. simpl. split; [discriminate|]. split; [|discriminate].
      intros rule [= <-] _. exists e. split; [reflexivity|].
      apply (check_sender_email_error config e); [apply Keys; simpl; tauto | exact E]. }
  rewrite (proj2 (check_sender_email_ok config) B6). simpl.
  split; [reflexivity|]. split; discriminate.
Qed.

(** The port rule: what [int()] makes of the value decides. *)
Theorem port_rule_verdict (config : pydict) (v : json) :
  dict_get "smtp_port" config = Some v ->
  (forall n, py_int v = Ok n -> (0 < n < 65535)%Z -> check_smtp_port config = Ok tt)
  /\ (forall n, py_int v = Ok n -> ~ (0 < n < 65535)%Z ->
        check_smtp_port config = Raise (ValueError port_message))
  /\ (forall e, py_int v = Raise e -> is_ValueError e = true ->
        check_smtp_port config = Raise (ValueError port_message))
  /\ (forall e, py_int v = Raise e -> is_ValueError e = false ->
        check_smtp_port config = Raise e).
Proof.
  intros H. rewrite check_smtp_port_cases, H. repeat split.
  - intros n -> [H1 H2]. apply Z.ltb_lt in H1. apply Z.ltb_lt in H2. now rewrite H1, H2.
  - intros n -> Hn. destruct (0 <? n)%Z eqn:H1; destruct (n <? 65535)%Z eqn:H2; simpl;
      try reflexivity.
    apply Z.ltb_lt in H1. apply Z.ltb_lt in H2. lia.
  - intros e -> He. now rewrite He.
  - intros e -> He. now rewrite He.
Qed.

(** C4, where the code departs from it. A port that is [null] makes [int()]
    raise a [TypeError], and a port that is an infinite float an
    [OverflowError]; neither is a [ValueError], so the [except ValueError]
    clause of the port rule lets it pass, [validate_config] raises it as it
    is, and [main] reports an unexpected error, not an invalid
    configuration. *)
Theorem C4_null_port_raises_TypeError :
  validate_config null_port_config
  = Raise (TypeError "int() argument must be a string, a bytes-like object or a real number, not 'NoneType'")
  /\ validate_config (config_with [db_admin] [alice] (JFloat (FInf false)))
     = Raise (OverflowError "cannot convert float infinity to integer")
  /\ (forall msg, is_ValueError (TypeError msg) = false
                  /\ is_ValueError (OverflowError msg) = false)
  /\ @main demo_runtime 0 (schedule_args "null_port.json") empty_world
     = (Exit 1,
        set_log [(INFO, [Lit "Configuration loaded from "; Val (JStr "null_port.json")]);
                 (ERROR_WITH_TRACEBACK, [Lit "An unexpected error occurred."])]
          (set_console
             [[Lit "An unexpected error occurred: ";
               Exc (TypeError "int() argument must be a string, a bytes-like object or a real number, not 'NoneType'")]]
             empty_world)).
Proof. repeat split. Qed.

(** ** Late binding, on two permissions and two reviewers *)

(** C1, where the code departs from it. Setup on two permissions and two
    reviewers registers four jobs, all of them the closure over the one
    activation of [schedule_reviews]; called after setup, that closure calls
    [create_review_task] with the last permission and the last reviewer, so
    the four jobs of a round send four messages to the same reviewer about the
    same permission. *)
Theorem C1_four_jobs_call_the_last_pair :
  map job_func (w_jobs (snd (@schedule_reviews demo_runtime sample_config empty_world)))
  = [JobClosure 0; JobClosure 0; JobClosure 0; JobClosure 0]
  /\ (forall w,
        nth_error (w_frames w) 0
        = nth_error (w_frames (snd (@schedule_reviews demo_runtime sample_config empty_world))) 0 ->
        @call demo_runtime (JobClosure 0) w
        = @create_review_task demo_runtime s3_write bob (JStr "localhost") (JInt 25)
            (JStr "permission_review@example.com") w)
  /\ map (fun a => addressed (fst a))
       (w_sent (snd (@run_pending demo_runtime
                       (set_clock 1000000 0
                          (snd (@schedule_reviews demo_runtime sample_config empty_world))))))
     = [(JStr "bob@example.com", review_subject (JStr "s3-write"));
        (JStr "bob@example.com", review_subject (JStr "s3-write"));
        (JStr "bob@example.com", review_subject (JStr "s3-write"));
        (JStr "bob@example.com", review_subject (JStr "s3-write"))].
Proof.
  split; [reflexivity|]. split; [|reflexivity].
  intros w H.
  match type of H with
  | _ = ?cells => let c := eval vm_compute in cells in change cells with c in H
  end.
  unfold call, job. rewrite H. reflexivity.
Qed.

(** ** The claims at concrete inputs *)



(** C3 on the sample: the four jobs are due in one round; the transport
    raises an SMTP error for the second message and a socket error for the
    third, and all four are sent all the same. *)
Lemma C3_witness :
  callable_jobs round_world = true
  /\ exists w',
       @run_pending demo_runtime round_world = (Ok tt, w')
       /\ map snd (w_sent w')
          = [None; Some (SMTPException "Connection unexpectedly closed");
             Some (OSError "Connection refused"); None].
Proof.
  split; [reflexivity|].
  destruct (@C3_failed_send_stops_no_round demo_runtime round_world
              (reference_smtp_raises_Exception demo_files) eq_refl)
    as [(w' & E & S & _ & _) _].
  exists w'. split; [exact E|]. rewrite S. reflexivity.
Defined.

Lemma sample_schedules_follow (p : json) :
  In p (permissions_of sample_config) ->
  @eval_follows demo_runtime parse_schedule syntax_error (@schedule_text demo_runtime p)
  /\ parse_schedule (@schedule_text demo_runtime p) <> None.
Proof.
  intros [<- | [<- | []]]; (split; [apply reference_eval_follows | discriminate]).
Qed.

Lemma follows_registers_one {RT : Runtime} (parse : string -> option Trigger)
  (failure : string -> Exn) (permission : json) :
  eval_follows parse failure (schedule_text permission) ->
  parse (schedule_text permission) <> None ->
  registers_one_job (expression_of permission).
Proof.
  intros Hf Hn f t table. specialize (Hf f t table).
  destruct (parse (schedule_text permission)) as [trigger|]; [|contradiction].
  exists trigger, (next_run trigger t). exact Hf.
Qed.

(** C5 on the sample: two permissions and two reviewers make four jobs. *)
Lemma C5_witness :
  validate_config sample_config = Ok tt
  /\ length (w_jobs (snd (@schedule_reviews demo_runtime sample_config empty_world))) = 4%nat
  /\ map fst (w_log (snd (@schedule_reviews demo_runtime sample_config empty_world)))
     = [INFO; INFO; INFO; INFO].
Proof.
  split; [reflexivity|].
  destruct (@C5_one_job_per_pair demo_runtime sample_config empty_world eq_refl
              (fun p _ => reference_eval_raises_Exception demo_files _))
    as (_ & _ & _ & _ & H).
  destruct H as (added & J & L & _ & G).
  { intros p Hp. destruct (sample_schedules_follow p Hp) as [Hf Hn].
    exact (follows_registers_one parse_schedule syntax_error p Hf Hn). }
  split; [rewrite J; exact L | rewrite G; reflexivity].
Defined.

(** The claim fails on a string of the grammar and on a string outside it.
    [every(2).monday] is in the grammar, and [schedule] refuses it: for the
    one pair of [biweekly_config] no job is registered.  The string of
    [lambda_config] is evaluated without an exception, so that the pair is
    logged as scheduled, and two jobs are registered for the one pair. *)
Lemma C5_count_is_not_the_number_of_pairs :
  in_grammar biweekly_schedule = true
  /\ validate_config biweekly_config = Ok tt
  /\ (length (permissions_of biweekly_config) * length (reviewers_of biweekly_config))%nat
     = 1%nat
  /\ fst (@schedule_reviews python_runtime biweekly_config empty_world) = Ok tt
  /\ w_jobs (snd (@schedule_reviews python_runtime biweekly_config empty_world)) = []
  /\ validate_config lambda_config = Ok tt
  /\ (length (permissions_of lambda_config) * length (reviewers_of lambda_config))%nat
     = 1%nat
  /\ map fst (w_log (snd (@schedule_reviews lambda_runtime lambda_config empty_world)))
     = [INFO]
  /\ length (w_jobs (snd (@schedule_reviews lambda_runtime lambda_config empty_world)))
     = 2%nat.
Proof. repeat split. Qed.

(** C6 on three permissions of which the second has a schedule string that
    the reference evaluator refuses: its two pairs are logged as failed, the
    four others are registered. *)
Lemma C6_witness :
  validate_config mixed_config = Ok tt
  /\ fst (@schedule_reviews demo_runtime mixed_config empty_world) = Ok tt
  /\ map job_trigger (w_jobs (snd (@schedule_reviews demo_runtime mixed_config empty_world)))
     = [{| t_interval := 1; t_unit := Weekday 0; t_at := Some (9, 0, 0)%nat |};
        {| t_interval := 1; t_unit := Weekday 0; t_at := Some (9, 0, 0)%nat |};
        {| t_interval := 30; t_unit := Minutes; t_at := None |};
        {| t_interval := 30; t_unit := Minutes; t_at := None |}]
  /\ map fst (w_log (snd (@schedule_reviews demo_runtime mixed_config empty_world)))
     = [INFO; INFO; ERROR; ERROR; INFO; INFO].
Proof.
  split; [reflexivity|].
  destruct (@C6_failed_schedule_skips_only_its_pairs demo_runtime mixed_config empty_world
              eq_refl (fun p _ => reference_eval_raises_Exception demo_files _))
    as (R & _ & _ & _ & H).
  destruct (H parse_schedule syntax_error
              (fun p _ => reference_eval_follows demo_files (@schedule_text demo_runtime p)))
    as (J & G).
  split; [exact R|]. split; [rewrite J | rewrite G]; reflexivity.
Defined.

(** The claim fails on two strings outside the grammar.  The string of
    [foreign_config] does not parse, and its pair is not skipped: the
    evaluation returns, a job is registered and the log says "Scheduled
    review".  The first string of [exit_config] does not parse either, and
    setup does not go on to the second permission: the evaluation raises
    [SystemExit], which leaves [schedule_reviews] and [main]. *)
Lemma C6_unparsed_string_is_not_skipped :
  in_grammar foreign_schedule = false
  /\ validate_config foreign_config = Ok tt
  /\ map fst (w_log (snd (@schedule_reviews python_runtime foreign_config empty_world)))
     = [INFO]
  /\ map job_func (w_jobs (snd (@schedule_reviews python_runtime foreign_config empty_world)))
     = [JobClosure 0]
  /\ in_grammar exit_schedule = false
  /\ validate_config exit_config = Ok tt
  /\ fst (@schedule_reviews python_runtime exit_config empty_world) = Raise (SystemExit 1)
  /\ w_evaluated (snd (@schedule_reviews python_runtime exit_config empty_world))
     = ["schedule.every().days.do(job) and exit(1).do(job)"]
  /\ w_log (snd (@schedule_reviews python_runtime exit_config empty_world)) = []
  /\ fst (@main python_runtime 1 (schedule_args "exit.json") empty_world)
     = Uncaught (SystemExit 1).
Proof. repeat split. Qed.

(** C7 on a document that lacks [reviewers] and [smtp_port]: the message
    names [reviewers], the first of the two in the order of the rule. *)
Lemma C7_witness :
  In "smtp_port" required_keys
  /\ dict_mem "smtp_port" keyless_config = false
  /\ validate_config keyless_config
     = Raise (ValueError "Missing required configuration key: reviewers").
Proof.
  split; [simpl; tauto|]. split; [reflexivity|].
  destruct (proj1 (proj2 (C7_first_missing_key_is_named keyless_config)) "smtp_port")
    as (key & before & after & _ & _ & _ & E); [simpl; tauto | reflexivity |].
  assert (Hkey : key = "reviewers") by (vm_compute in E; inversion E; reflexivity).
  rewrite Hkey in E. exact E.
Defined.

(** The claim fails on the document [null], which has none of the keys: the
    test [key not in config] of the first rule raises a [TypeError], which is
    no [ValueError]; so it does on a number and on a boolean. *)
Lemma C7_null_document_raises_TypeError :
  validate_document JNull
  = Raise (TypeError "argument of type 'NoneType' is not iterable")
  /\ validate_document (JInt 7)
     = Raise (TypeError "argument of type 'int' is not iterable")
  /\ validate_document (JBool true)
     = Raise (TypeError "argument of type 'bool' is not iterable")
  /\ forall msg, is_ValueError (TypeError msg) = false.
Proof. repeat split. Qed.

(** C8 on the sample: one message, from the sender to the sender. *)
Lemma C8_witness :
  validate_config sample_config = Ok tt
  /\ map (fun a => (mail_from (fst a), mail_to (fst a)))
       (w_sent (snd (@main demo_runtime 5
                       (test_args "permission_review_config.json") empty_world)))
     = [(JStr "permission_review@example.com", JStr "permission_review@example.com")]
  /\ w_jobs (snd (@main demo_runtime 5
                    (test_args "permission_review_config.json") empty_world)) = [].
Proof.
  split; [reflexivity|].
  destruct (@C8_test_mode_sends_once_to_the_sender demo_runtime 5
              "permission_review_config.json" sample_config empty_world eq_refl eq_refl)
    as (S & _ & J & _).
  split; [rewrite S; reflexivity | exact J].
Defined.


(** C10 in a world where the next use of the transport fails with an SMTP
    error: the process still exits with status 0. *)
Lemma C10_witness :
  @smtp demo_runtime (length (w_sent used_world)) (config_test_mail sample_config)
  = Some (SMTPException "Connection unexpectedly closed")
  /\ fst (@main demo_runtime 0 (test_args "permission_review_config.json") used_world) = Exit 0.
Proof.
  split; [reflexivity|].
  exact (proj1 (@C10_test_mode_exits_zero_when_the_send_fails demo_runtime 0
                  "permission_review_config.json" sample_config used_world
                  (SMTPException "Connection unexpectedly closed")
                  eq_refl eq_refl eq_refl eq_refl)).
Defined.

(** The port rule on the string ["25"] and on the number 65535. *)
Lemma port_rule_witness :
  check_smtp_port string_port_config = Ok tt
  /\ check_smtp_port (config_with [] [] (JInt 65535)) = Raise (ValueError port_message).
Proof.
  split.
  - apply (proj1 (port_rule_verdict string_port_config (JStr "25") eq_refl) 25%Z eq_refl).
    split; reflexivity.
  - apply (proj1 (proj2 (port_rule_verdict (config_with [] [] (JInt 65535)) (JInt 65535)
                           eq_refl)) 65535%Z eq_refl).
    intros [_ H]. discriminate H.
Defined.

(** Late binding on the sample: the closure calls [create_review_task] with
    the second permission and the second reviewer. *)
Lemma job_uses_last_pair_witness :
  @job demo_runtime 0 (@setup_world demo_runtime sample_config empty_world)
  = @create_review_task demo_runtime s3_write bob (JStr "localhost") (JInt 25)
      (JStr "permission_review@example.com")
      (@setup_world demo_runtime sample_config empty_world).
Proof.
  destruct (@job_uses_last_pair demo_runtime sample_config empty_world
              (@setup_world demo_runtime sample_config empty_world) eq_refl)
    as (p & r & Ep & Er & E); try discriminate; [reflexivity|].
  injection Ep as <-. injection Er as <-. exact E.
Defined.

(** Scheduling mode on the sample: still polling after three rounds. *)
Lemma main_keeps_polling_witness :
  fst (@main demo_runtime 3 (schedule_args "permission_review_config.json") empty_world)
  = Polling.
Proof.
  exact (proj1 (@main_keeps_polling demo_runtime parse_schedule syntax_error 3
                  "permission_review_config.json" sample_config empty_world
                  eq_refl eq_refl
                  (fun p _ => reference_eval_follows demo_files (@schedule_text demo_runtime p))
                  (fun _ => eq_refl)
                  (reference_smtp_raises_Exception demo_files) eq_refl)).
Defined.

(** A job whose function raises ends the loop.  The schedule string of
    [lambda_config] passes validation and registers two jobs, the first of
    which calls a lambda that divides by zero.  Both are due in the second
    round; [run_pending] lets the exception of the first pass, the second job
    is never run (the transport is not used), and [main] exits with status 1
    after one completed round. *)
Lemma C3_raising_job_ends_the_loop :
  validate_config lambda_config = Ok tt
  /\ map (fun ij => job_func (snd ij))
       (runnable_jobs
          (set_clock 60 1 (snd (@schedule_reviews lambda_runtime lambda_config empty_world))))
     = [OtherFunction (Some division_by_zero); JobClosure 0]
  /\ fst (@main lambda_runtime 2 (schedule_args "lambda.json") empty_world) = Exit 1
  /\ w_sent (snd (@main lambda_runtime 2 (schedule_args "lambda.json") empty_world)) = []
  /\ w_ticks (snd (@main lambda_runtime 2 (schedule_args "lambda.json") empty_world)) = 1%nat
  /\ w_console (snd (@main lambda_runtime 2 (schedule_args "lambda.json") empty_world))
     = [[Lit "An unexpected error occurred: "; Exc division_by_zero]].
Proof. repeat split. Qed.

(** * Further properties of the code *)

(** ** Validation: which exceptions, which entry, which ports *)

Lemma require_keys_raises (prefix : string) (keys : list string) (d : pydict) (e : Exn) :
  require_keys prefix keys d = Raise e -> exists msg, e = ValueError msg.
Proof.
  rewrite require_keys_first_missing. destruct (first_missing keys d); [|discriminate].
  intros [= <-]. eauto.
Qed.

Lemma check_permission_raises (v : json) (e : Exn) :
  check_permission v = Raise e -> exists msg, e = ValueError msg.
Proof.
  destruct v as [| | | | | |p]; simpl; try (intros [= <-]; eauto).
  destruct (require_keys _ required_permission_keys p) as [[]|e'] eqn:K; simpl.
  - apply require_keys_ok in K.
    inversion K as [|? ? _ K1]; subst. inversion K1 as [|? ? Hp K2]; subst.
    inversion K2 as [|? ? Hs _]; subst.
    rewrite !subscript_field by assumption. simpl.
    destruct (is_dict _); simpl; [|intros [= <-]; eauto].
    destruct (is_str _); simpl; [discriminate | intros [= <-]; eauto].
  - intros [= <-]. eapply require_keys_raises; eauto.
Qed.

Lemma check_reviewer_raises (v : json) (e : Exn) :
  check_reviewer v = Raise e -> exists msg, e = ValueError msg.
Proof.
  destruct v as [| | | | | |r]; simpl; try (intros [= <-]; eauto).
  destruct (require_keys _ required_reviewer_keys r) as [[]|e'] eqn:K; simpl.
  - apply require_keys_ok in K.
    inversion K as [|? ? _ K1]; subst. inversion K1 as [|? ? He _]; subst.
    rewrite !subscript_field by assumption. simpl.
    destruct (not_an_address _); [intros [= <-]; eauto | discriminate].
  - intros [= <-]. eapply require_keys_raises; eauto.
Qed.

Lemma validate_config_raise_cases (config : pydict) (e : Exn) :
  validate_config config = Raise e ->
  (exists msg, e = ValueError msg)
  \/ (check_required_keys config = Ok tt
      /\ check_permissions config = Ok tt
      /\ check_reviewers config = Ok tt
      /\ check_smtp_server config = Ok tt
      /\ exists v, dict_get "smtp_port" config = Some v
                   /\ py_int v = Raise e
                   /\ ((exists msg, e = TypeError msg) \/ (exists msg, e = OverflowError msg))).
Proof.
  unfold validate_config.
  destruct (check_required_keys config) as [[]|e1] eqn:K; simpl.
  2:{ intros [= <-]. left. eapply require_keys_raises; exact K. }
  pose proof K as Keys. unfold check_required_keys in Keys. apply require_keys_ok in Keys.
  inversion Keys as [|? ? Hp K1]; subst. inversion K1 as [|? ? Hr K2]; subst.
  inversion K2 as [|? ? Hs K3]; subst. inversion K3 as [|? ? Hq K4]; subst.
  inversion K4 as [|? ? He _]; subst.
  destruct (check_permissions config) as [[]|e2] eqn:P; simpl.
  2:{ intros [= <-]. left. unfold check_permissions in P.
      rewrite !subscript_field in P by assumption.
      destruct (field (JDict config) "permissions_to_review") as [| | | | |items|];
        simpl in P; try (injection P as <-; eauto).
      apply rfor_raises in P as (x & _ & Ex). eapply check_permission_raises; eauto. }
  destruct (check_reviewers config) as [[]|e2] eqn:R; simpl.
  2:{ intros [= <-]. left. unfold check_reviewers in R.
      rewrite !subscript_field in R by assumption.
      destruct (field (JDict config) "reviewers") as [| | | | |items|];
        simpl in R; try (injection R as <-; eauto).
      apply rfor_raises in R as (x & _ & Ex). eapply check_reviewer_raises; eauto. }
  destruct (check_smtp_server config) as [[]|e2] eqn:S; simpl.
  2:{ intros [= <-]. left. unfold check_smtp_server in S.
      rewrite subscript_field in S by assumption. simpl in S.
      destruct (is_str _); simpl in S; [discriminate | injection S as <-; eauto]. }
  destruct (check_smtp_port config) as [[]|e2] eqn:Q; simpl.
  2:{ intros [= <-]. rewrite check_smtp_port_cases in Q.
      apply dict_mem_get in Hq as [v Hv]. rewrite Hv in Q.
      destruct (py_int v) as [n|e3] eqn:I.
      - left. destruct ((0 <? n)%Z && (n <? 65535)%Z); [discriminate|].
        injection Q as <-. eauto.
      - destruct (is_ValueError e3) eqn:V; injection Q as <-; [left; eauto|].
        right. repeat split; auto. exists v. repeat split; auto.
        destruct v as [| | |[| |]|s| |]; simpl in I; try discriminate;
          try (injection I as <-; first [discriminate V | solve [eauto]]).
        destruct (int_of_string s); [discriminate|].
        injection I as <-. discriminate V. }
  intros E. left. unfold check_sender_email in E.
  rewrite subscript_field in E by assumption. simpl in E.
  destruct (not_an_address _); [injection E as <-; eauto | discriminate].
Qed.

Lemma check_required_keys_in_raises (v : json) (e : Exn) :
  check_required_keys_in v = Raise e ->
  (exists key, In key required_keys
               /\ e = ValueError ("Missing required configuration key: " ++ key))
  \/ (is_dict v = false /\ exists msg, e = TypeError msg).
Proof.
  unfold check_required_keys_in.
  intros H. apply rfor_raises in H as (key & Hin & H).
  destruct (py_in key v) as [present|e'] eqn:P; simpl in H.
  - destruct present; simpl in H; [discriminate|]. injection H as <-. left. eauto.
  - injection H as <-. right.
    destruct v; simpl in P; try discriminate; injection P as <-; eauto.
Qed.

(** The exceptions of [validate_config], on every value [json.load] can
    return.  It raises a [ValueError], a [TypeError] or an [OverflowError] and
    nothing else; in particular never a [KeyError], although it subscripts the
    document and its entries.  On a dictionary the [TypeError] and the
    [OverflowError] have one origin: the required keys, the permissions, the
    reviewers and the server have passed and [int()] of the port raises it.
    On a value that is no dictionary the function raises either the
    [ValueError] of a missing key (a list or a string that does not hold the
    name of a required key) or a [TypeError] (of [in] on [None], a boolean or
    a number, or of the string subscript on a list or a string). *)
Theorem validate_config_raises (config : json) (e : Exn) :
  validate_document config = Raise e ->
  ((exists msg, e = ValueError msg)
   \/ (exists d v,
         config = JDict d
         /\ check_required_keys d = Ok tt
         /\ check_permissions d = Ok tt
         /\ check_reviewers d = Ok tt
         /\ check_smtp_server d = Ok tt
         /\ dict_get "smtp_port" d = Some v
         /\ py_int v = Raise e
         /\ ((exists msg, e = TypeError msg) \/ (exists msg, e = OverflowError msg)))
   \/ (is_dict config = false /\ exists msg, e = TypeError msg))
  /\ (is_dict config = false ->
      (exists key, In key required_keys
                   /\ e = ValueError ("Missing required configuration key: " ++ key))
      \/ exists msg, e = TypeError msg)
  /\ (forall key, e <> KeyError key)
  /\ is_Exception e = true
  /\ is_FileNotFoundError e = false
  /\ is_JSONDecodeError e = false.
Proof.
  intros H.
  assert (C : ((exists msg, e = ValueError msg)
               \/ (exists d v,
                     config = JDict d
                     /\ check_required_keys d = Ok tt
                     /\ check_permissions d = Ok tt
                     /\ check_reviewers d = Ok tt
                     /\ check_smtp_server d = Ok tt
                     /\ dict_get "smtp_port" d = Some v
                     /\ py_int v = Raise e
                     /\ ((exists msg, e = TypeError msg)
                         \/ (exists msg, e = OverflowError msg)))
               \/ (is_dict config = false /\ exists msg, e = TypeError msg))
              /\ (is_dict config = false ->
                  (exists key, In key required_keys
                               /\ e = ValueError ("Missing required configuration key: "
                                                  ++ key))
                  \/ exists msg, e = TypeError msg)).
  { destruct (is_dict config) eqn:D.
    - destruct config as [| | | | | |d]; try discriminate D.
      rewrite validate_document_dict in H. split; [|discriminate].
      destruct (validate_config_raise_cases d e H)
        as [V | (K & P & R & S & v & Hv & I & T)]; [left; exact V|].
      right. left. exists d, v. split; [reflexivity|]. repeat (split; [assumption|]). exact T.
    - assert (G : (exists key, In key required_keys
                               /\ e = ValueError ("Missing required configuration key: "
                                                  ++ key))
                  \/ exists msg, e = TypeError msg).
      { unfold validate_document in H.
        destruct (check_required_keys_in config) as [[]|e'] eqn:K; simpl in H.
        - destruct (subscript_value_other config "permissions_to_review" D) as [msg S].
          destruct config; try discriminate D; rewrite S in H; injection H as <-; eauto.
        - injection H as <-.
          destruct (check_required_keys_in_raises config e' K) as [V | [_ T]]; auto. }
      split; [|intros _; exact G].
      destruct G as [(key & _ & ->) | T]; [left; eauto | right; right; auto]. }
  destruct C as [C1 C2]. split; [exact C1|]. split; [exact C2|].
  destruct C1 as [[msg ->] | [(d & v & _ & _ & _ & _ & _ & _ & _ & [[msg ->] | [msg ->]])
                             | (_ & msg & ->)]];
    (split; [intros key; discriminate | repeat split]).
Qed.

(** The null port: the [TypeError] of [int(None)] is the exception raised. *)
Lemma validate_config_raises_witness :
  exists v,
    dict_get "smtp_port" null_port_config = Some v
    /\ py_int v
       = Raise (TypeError "int() argument must be a string, a bytes-like object or a real number, not 'NoneType'").
Proof.
  destruct (validate_config_raises (JDict null_port_config)
              (TypeError "int() argument must be a string, a bytes-like object or a real number, not 'NoneType'")
              eq_refl)
    as [[[msg H] | [(d & v & E & _ & _ & _ & _ & Hv & I & _) | (D & _)]] _].
  - discriminate H.
  - injection E as <-. exists v. split; assumption.
  - discriminate D.
Defined.

Lemma rfor_first_bad {A} (body : A -> Result unit) (before after : list A) (bad : A) (e : Exn) :
  Forall (fun x => body x = Ok tt) before ->
  body bad = Raise e ->
  rfor (before ++ bad :: after) body = Raise e.
Proof.
  intros Hb He. induction Hb as [|x rest Hx _ IH]; simpl.
  - now rewrite He.
  - now rewrite Hx.
Qed.

(** Within each of the two lists the first bad entry decides.  When the five
    keys are present and [permissions_to_review] is a list whose entries
    before [bad] pass, validation raises what the check of [bad] raises,
    whatever the entries after it and the rest of the document hold; the same
    for [reviewers] once the permissions have passed. *)
Theorem first_bad_entry_decides (config : pydict) (before after : list json) (bad : json)
  (e : Exn) :
  check_required_keys config = Ok tt ->
  (dict_get "permissions_to_review" config = Some (JList (before ++ bad :: after)) ->
   Forall (fun p => check_permission p = Ok tt) before ->
   check_permission bad = Raise e ->
   validate_config config = Raise e)
  /\ (check_permissions config = Ok tt ->
      dict_get "reviewers" config = Some (JList (before ++ bad :: after)) ->
      Forall (fun r => check_reviewer r = Ok tt) before ->
      check_reviewer bad = Raise e ->
      validate_config config = Raise e).
Proof.
  intros K. split.
  - intros G Hb He. unfold validate_config. rewrite K. simpl.
    unfold check_permissions, subscript. rewrite G. simpl.
    now rewrite (rfor_first_bad check_permission before after bad e Hb He).
  - intros P G Hb He. unfold validate_config. rewrite K, P. simpl.
    unfold check_reviewers, subscript. rewrite G. simpl.
    now rewrite (rfor_first_bad check_reviewer before after bad e Hb He).
Qed.

(** A document whose second and third permission entries are both bad: the
    error is the one of the second. *)
Lemma first_bad_entry_witness :
  validate_config two_bad_config
  = Raise (ValueError "Each permission entry in permissions_to_review must be a dictionary.").
Proof.
  apply (proj1 (first_bad_entry_decides two_bad_config [db_admin]
                  [JDict [("description", JStr "vpn"); ("permission_details", JDict [])]]
                  (JStr "s3-write")
                  (ValueError "Each permission entry in permissions_to_review must be a dictionary.")
                  eq_refl)).
  - reflexivity.
  - repeat constructor.
  - reflexivity.
Defined.

Lemma quot_in_range (n : Z) (d : positive) :
  (0 < Z.quot n (Zpos d) < 65535)%Z <-> (Zpos d <= n < 65535 * Zpos d)%Z.
Proof.
  pose proof (Z.quot_rem' n (Zpos d)) as E.
  pose proof (Pos2Z.is_pos d) as D.
  destruct (Z_le_gt_dec 0 n) as [N|N].
  - pose proof (Z.rem_bound_pos n (Zpos d) N D) as R. split; intros H; nia.
  - assert (N' : (n <= 0)%Z) by lia.
    pose proof (Z.rem_bound_neg_pos n (Zpos d)) as R.
    assert (Z.quot n (Zpos d) <= 0)%Z.
    { apply Z.quot_le_upper_bound; [exact D | nia]. }
    split; intros H1; lia.
Qed.

(** The ports validation accepts, value by value.  The message of the rule
    says between 1 and 65535; an integer passes from 1 to 65534.  [true]
    passes (it is the integer 1) and [false] does not; a finite float passes
    when its integer part does, so 25.9 passes and 0.5 does not; a string of
    ASCII characters passes when [int()] reads it as an integer from 1 to
    65534 (of a string with other characters nothing is said: [int()] reads
    the digits and blanks of other scripts, [int_of_string] does not); the
    other values never pass. *)
Theorem port_values_accepted (config : pydict) (v : json) :
  dict_get "smtp_port" config = Some v ->
  match v with
  | JInt n => check_smtp_port config = Ok tt <-> (1 <= n <= 65534)%Z
  | JBool b => check_smtp_port config = Ok tt <-> b = true
  | JFloat (FFinite n d) =>
      check_smtp_port config = Ok tt <-> (Zpos d <= n < 65535 * Zpos d)%Z
  | JStr s =>
      ascii_only s = true ->
      (check_smtp_port config = Ok tt
       <-> exists n, int_of_string s = Some n /\ (1 <= n <= 65534)%Z)
  | _ => check_smtp_port config <> Ok tt
  end.
Proof.
  intros G. rewrite check_smtp_port_cases, G.
  destruct v as [|[|]|n|[n d| |]|s|l|d]; simpl; try discriminate.
  - split; auto.
  - split; [discriminate | discriminate].
  - destruct ((0 <? n)%Z && (n <? 65535)%Z) eqn:B.
    + apply andb_true_iff in B as [B1 B2].
      apply Z.ltb_lt in B1. apply Z.ltb_lt in B2. split; [lia | auto].
    + split; [discriminate|]. intros H. apply andb_false_iff in B as [B|B];
        apply Z.ltb_ge in B; lia.
  - rewrite <- quot_in_range.
    destruct ((0 <? Z.quot n (Zpos d))%Z && (Z.quot n (Zpos d) <? 65535)%Z) eqn:B.
    + apply andb_true_iff in B as [B1 B2].
      apply Z.ltb_lt in B1. apply Z.ltb_lt in B2. split; [lia | auto].
    + split; [discriminate|]. intros H. apply andb_false_iff in B as [B|B];
        apply Z.ltb_ge in B; lia.
  - intros _. destruct (int_of_string s) as [n|]; simpl.
    + destruct ((0 <? n)%Z && (n <? 65535)%Z) eqn:B.
      * apply andb_true_iff in B as [B1 B2].
        apply Z.ltb_lt in B1. apply Z.ltb_lt in B2. split; [|auto].
        intros _. exists n. split; [reflexivity | lia].
      * split; [discriminate|]. intros (m & [= <-] & H).
        apply andb_false_iff in B as [B|B]; apply Z.ltb_ge in B; lia.
    + split; [discriminate|]. intros (m & H & _). discriminate H.
Qed.

(** The number 65535, which the message of the rule names, is refused; the
    float 25.9 and the string ["25"] are accepted. *)
Lemma port_values_witness :
  check_smtp_port (config_with [] [] (JInt 65535)) <> Ok tt
  /\ check_smtp_port (config_with [] [] (JFloat (FFinite 259 10))) = Ok tt
  /\ check_smtp_port string_port_config = Ok tt.
Proof.
  split; [|split].
  - intros H.
    apply (proj1 (port_values_accepted (config_with [] [] (JInt 65535)) (JInt 65535) eq_refl)) in H.
    lia.
  - apply (proj2 (port_values_accepted (config_with [] [] (JFloat (FFinite 259 10)))
                    (JFloat (FFinite 259 10)) eq_refl)).
    lia.
  - apply (proj2 (port_values_accepted string_port_config (JStr "25") eq_refl eq_refl)).
    exists 25%Z. split; [reflexivity | lia].
Defined.

(** ** What a computation leaves alone *)

Lemma keeps_ret {X A} (observe : World -> X) (a : A) : keeps observe (ret a).
Proof. intros w. reflexivity. Qed.

Lemma keeps_raise {X A} (observe : World -> X) (e : Exn) : keeps observe (@raise A e).
Proof. intros w. reflexivity. Qed.

Lemma keeps_lift {X A} (observe : World -> X) (r : Result A) : keeps observe (lift r).
Proof. intros w. reflexivity. Qed.

Lemma keeps_bind {X A B} (observe : World -> X) (c : M A) (k : A -> M B) :
  keeps observe c -> (forall a, keeps observe (k a)) -> keeps observe (bind c k).
Proof.
  intros Hc Hk w. unfold bind. specialize (Hc w).
  destruct (c w) as [[a|e] w1]; simpl in Hc |- *.
  - now rewrite Hk.
  - exact Hc.
Qed.

Lemma keeps_try_except {X A} (observe : World -> X) (body : M A) (caught : Exn -> bool)
  (handler : Exn -> M A) :
  keeps observe body -> (forall e, keeps observe (handler e)) ->
  keeps observe (try_except body caught handler).
Proof.
  intros Hb Hh w. unfold try_except. specialize (Hb w).
  destruct (body w) as [[a|e] w1]; simpl in Hb |- *; [exact Hb|].
  destruct (caught e); [now rewrite Hh | exact Hb].
Qed.

Ltac keeps_step :=
  first [ apply keeps_ret | apply keeps_raise | apply keeps_lift
        | apply keeps_bind; [|intros ?] | apply keeps_try_except; [|intros ?] ].

(** ** [create_review_task] on a missing key *)

Section Further.
Context {RT : Runtime}.

(** [create_review_task] lets a missing key pass.  Called with two
    dictionaries of which one lacks a key the function reads, it raises the
    [KeyError] of the first such key in the order it reads them
    ([description], [name], [permission_details], [email]) and leaves the
    world as it was: nothing is sent and nothing is logged.  That holds for a
    missing [email] too, which is read inside the [try]: the handler reads it
    again for its log line. *)
Theorem create_review_task_missing_key (p r : pydict)
  (smtp_server smtp_port sender_email : json) (w : World) :
  task_ready (JDict p) (JDict r) = false ->
  exists key d,
    find (fun kd => negb (dict_mem (fst kd) (snd kd)))
      [("description", p); ("name", r); ("permission_details", p); ("email", r)]
    = Some (key, d)
    /\ create_review_task (JDict p) (JDict r) smtp_server smtp_port sender_email w
       = (Raise (KeyError key), w).
Proof.
  unfold task_ready, create_review_task, bind, lift, try_except, subscript_value, subscript,
    dict_mem.
  simpl find. unfold dict_mem.
  destruct (dict_get "description" p) as [d|]; simpl; [|eauto].
  destruct (dict_get "name" r) as [n|]; simpl; [|rewrite andb_false_r; eauto].
  destruct (dict_get "permission_details" p) as [t|]; simpl; [|eauto].
  destruct (dict_get "email" r) as [a|]; simpl; [discriminate | eauto].
Qed.

End Further.

(** A reviewer entry without [email]: the [KeyError] leaves
    [create_review_task], and the world is as it was. *)
Lemma create_review_task_missing_key_witness :
  @create_review_task demo_runtime db_admin nameless_address (JStr "localhost") (JInt 25)
    (JStr "permission_review@example.com") empty_world
  = (Raise (KeyError "email"), empty_world).
Proof.
  destruct (@create_review_task_missing_key demo_runtime
              [("description", JStr "db-admin");
               ("permission_details", JDict [("resource", JStr "db-admin")]);
               ("review_schedule", JStr "every().monday.at('09:00')")]
              [("name", JStr "Carol")]
              (JStr "localhost") (JInt 25) (JStr "permission_review@example.com")
              empty_world eq_refl) as (key & d & F & E).
  injection F as <- _. exact E.
Defined.

(** ** Starting up *)

Section Startup.
Context {RT : Runtime}.

(** When the configuration cannot be read, [main] exits with status 1 in
    either mode.  The first [except] clause that matches the exception
    decides the line on the console: a [JSONDecodeError] is reported as
    invalid JSON although it is a [ValueError] too, any other [ValueError]
    of the reading as an invalid configuration, and an exception of no class
    named in [main] as unexpected, with a traceback in the log.
    [load_config] has logged the two failures it names before.  Nothing is
    sent, evaluated or registered.  ([OtherException] stands for a class that
    derives from none of the classes [main] names.) *)
Theorem main_reports_unreadable_config (rounds : nat) (args : Args) (w : World) (e : Exn) :
  read_json (args_config args) = Raise e ->
  is_Exception e = true ->
  let run := main rounds args w in
  fst run = Exit 1
  /\ w_console (snd run) = w_console w ++ [failure_line (args_config args) e]
  /\ w_log (snd run)
     = w_log w
       ++ (if is_FileNotFoundError e
           then [(ERROR, [Lit "Configuration file not found: "; Val (JStr (args_config args))])]
           else if is_JSONDecodeError e
           then [(ERROR, [Lit "Invalid JSON in configuration file: ";
                          Val (JStr (args_config args)); Lit ". Error: "; Exc e])]
           else [])
       ++ (if is_FileNotFoundError e || is_ValueError e then []
           else [(ERROR_WITH_TRACEBACK, [Lit "An unexpected error occurred."])])
  /\ w_sent (snd run) = w_sent w
  /\ w_jobs (snd run) = w_jobs w
  /\ w_evaluated (snd run) = w_evaluated w
  /\ w_frames (snd run) = w_frames w
  /\ w_ticks (snd run) = w_ticks w.
Proof.
  intros Hread Hexn run. subst run.
  unfold main, main_body, bind, load_config. rewrite Hread.
  destruct e; try discriminate Hexn; simpl; rewrite ?app_nil_r; repeat split.
Qed.

(** When the configuration is read and validation raises, [main] exits with
    status 1 in either mode: nothing is sent, also in test-email mode, and
    nothing is evaluated or registered.  A [ValueError] is reported as an
    invalid configuration; the [TypeError] or [OverflowError] that [int()] of
    the port can raise is reported as unexpected, with a traceback in the
    log. *)
Theorem main_reports_invalid_config (rounds : nat) (args : Args) (config : pydict) (w : World)
  (e : Exn) :
  read_json (args_config args) = Ok config ->
  validate_config config = Raise e ->
  let run := main rounds args w in
  fst run = Exit 1
  /\ w_console (snd run)
     = w_console w ++ [if is_ValueError e
                       then [Lit "Error: Invalid configuration: "; Exc e]
                       else [Lit "An unexpected error occurred: "; Exc e]]
  /\ w_log (snd run)
     = w_log w
       ++ (INFO, [Lit "Configuration loaded from "; Val (JStr (args_config args))])
          :: (if is_ValueError e then []
              else [(ERROR_WITH_TRACEBACK, [Lit "An unexpected error occurred."])])
  /\ w_sent (snd run) = w_sent w
  /\ w_jobs (snd run) = w_jobs w
  /\ w_evaluated (snd run) = w_evaluated w
  /\ w_frames (snd run) = w_frames w
  /\ w_ticks (snd run) = w_ticks w.
Proof.
  intros Hread Hv run. subst run.
  unfold main, main_body.
  rewrite (bind_ok _ _ w _ config (load_config_ok _ config w Hread)).
  unfold bind at 1. unfold lift at 1. rewrite Hv.
  destruct (validate_config_raise_cases config e Hv)
    as [[msg ->] | (_ & _ & _ & _ & v & _ & _ & [[msg ->] | [msg ->]])];
    simpl; rewrite <- ?app_assoc; repeat split.
Qed.

(** In test-email mode on a valid configuration the process never exits with
    status 1.  When the transport takes the message, [main] prints the line
    of success, the log has the lines of the loading and of the send, and the
    status is 0; when the transport raises an exception outside [Exception]
    (an interrupt), that exception leaves [main] and nothing is printed. *)
Theorem test_mode_outcome (rounds : nat) (path : string) (config : pydict) (w : World) :
  read_json path = Ok config ->
  validate_config config = Ok tt ->
  let m := config_test_mail config in
  let run := main rounds (test_args path) w in
  (smtp (length (w_sent w)) m = None ->
   fst run = Exit 0
   /\ w_console (snd run)
      = w_console w ++ [[Lit "Test email sent successfully. Check your inbox."]]
   /\ w_log (snd run)
      = w_log w ++ [(INFO, [Lit "Configuration loaded from "; Val (JStr path)]);
                    (INFO, [Lit "Email sent successfully to "; Val (mail_to m)])])
  /\ (forall e, smtp (length (w_sent w)) m = Some e -> is_Exception e = false ->
        fst run = Uncaught e /\ w_console (snd run) = w_console w)
  /\ (forall status, fst run = Exit status -> status = 0%Z).
Proof.
  intros Hread Hv m run. subst run.
  rewrite (main_test_mode rounds path config w Hread Hv). fold m.
  destruct (smtp (length (w_sent w)) m) as [e|].
  - cbv zeta. split; [discriminate|]. split.
    + intros e' [= <-] E. rewrite E. split; [reflexivity|].
      unfold after_failed_send. destruct (is_SMTPException e); reflexivity.
    + intros status. destruct (is_Exception e); simpl; [intros [= <-]; reflexivity | discriminate].
  - split; [intros _|split; [discriminate|]].
    + repeat split. simpl. now rewrite <- app_assoc.
    + intros status [= <-]. reflexivity.
Qed.

End Startup.

(** A file that is not there, in test-email mode. *)
Lemma main_reports_unreadable_witness :
  fst (@main demo_runtime 0 (test_args "missing.json") empty_world) = Exit 1
  /\ w_console (snd (@main demo_runtime 0 (test_args "missing.json") empty_world))
     = [[Lit "Error: Configuration file not found: "; Val (JStr "missing.json")]]
  /\ w_sent (snd (@main demo_runtime 0 (test_args "missing.json") empty_world)) = [].
Proof.
  destruct (@main_reports_unreadable_config demo_runtime 0 (test_args "missing.json")
              empty_world FileNotFoundError eq_refl eq_refl) as (O & C & _ & S & _).
  split; [exact O|]. split; [exact C | exact S].
Defined.

(** The sample with a port of 70000, in test-email mode: status 1, and no
    message is sent. *)
Lemma main_reports_invalid_witness :
  fst (@main (reference_runtime [("big_port.json", Ok (config_with [db_admin] [alice] (JInt 70000)))])
         0 (test_args "big_port.json") empty_world) = Exit 1
  /\ w_sent (snd (@main (reference_runtime
                           [("big_port.json", Ok (config_with [db_admin] [alice] (JInt 70000)))])
                    0 (test_args "big_port.json") empty_world)) = [].
Proof.
  destruct (@main_reports_invalid_config
              (reference_runtime [("big_port.json", Ok (config_with [db_admin] [alice] (JInt 70000)))])
              0 (test_args "big_port.json") (config_with [db_admin] [alice] (JInt 70000))
              empty_world (ValueError port_message) eq_refl eq_refl) as (O & _ & _ & S & _).
  split; [exact O | exact S].
Defined.

(** Test-email mode on the sample: the first use of the reference transport
    succeeds. *)
Lemma test_mode_outcome_witness :
  fst (@main demo_runtime 0 (test_args "permission_review_config.json") empty_world) = Exit 0
  /\ w_console (snd (@main demo_runtime 0 (test_args "permission_review_config.json")
                       empty_world))
     = [[Lit "Test email sent successfully. Check your inbox."]].
Proof.
  destruct (@test_mode_outcome demo_runtime 0 "permission_review_config.json" sample_config
              empty_world eq_refl eq_refl) as (H & _).
  destruct (H eq_refl) as (O & C & _). split; [exact O | exact C].
Defined.

(** ** Calling a job, and polling an empty table *)

Section Calls.
Context {RT : Runtime}.

Lemma keeps_logging_task (lvl : Level) (t : text) : keeps outside_task (logging lvl t).
Proof. intros w. reflexivity. Qed.

Lemma keeps_transmit_task (m : Mail) : keeps outside_task (transmit m).
Proof. intros w. unfold transmit. destruct (smtp (length (w_sent w)) m); reflexivity. Qed.

Lemma keeps_create_review_task (permission reviewer smtp_server smtp_port sender_email : json) :
  keeps outside_task
    (create_review_task permission reviewer smtp_server smtp_port sender_email).
Proof.
  unfold create_review_task, send_email.
  repeat first [ keeps_step | apply keeps_logging_task | apply keeps_transmit_task ].
Qed.

Lemma keeps_read_cell {X} (observe : World -> X) (name : string) (cell : option json) :
  keeps observe (read_cell name cell).
Proof. destruct cell; [apply keeps_ret | apply keeps_raise]. Qed.

Lemma keeps_job (frame : nat) : keeps outside_task (job frame).
Proof.
  intros w. unfold job. destruct (nth_error (w_frames w) frame) as [cells|]; [|reflexivity].
  revert w. change (keeps outside_task
    (permission <- read_cell "permission" (f_permission cells) ;;
     reviewer <- read_cell "reviewer" (f_reviewer cells) ;;
     smtp_server <- lift (subscript (f_config cells) "smtp_server") ;;
     smtp_port <- lift (subscript (f_config cells) "smtp_port") ;;
     sender_email <- lift (subscript (f_config cells) "sender_email") ;;
     create_review_task permission reviewer smtp_server smtp_port sender_email)).
  repeat first [ apply keeps_create_review_task | apply keeps_read_cell | keeps_step ].
Qed.

Lemma create_review_task_sends (permission reviewer smtp_server smtp_port sender_email : json)
  (w : World) :
  let run := create_review_task permission reviewer smtp_server smtp_port sender_email w in
  w_sent (snd run) = w_sent w
  \/ exists m, w_sent (snd run) = w_sent w ++ [(m, smtp (length (w_sent w)) m)].
Proof.
  intros run. subst run. unfold create_review_task, bind, lift, try_except.
  destruct (subscript_value permission "description") as [d|e1]; [|left; reflexivity].
  destruct (subscript_value reviewer "name") as [n|e2]; [|left; reflexivity].
  destruct (subscript_value permission "permission_details") as [t|e3]; [|left; reflexivity].
  destruct (subscript_value reviewer "email") as [a|e4].
  - right. rewrite send_email_cases.
    match goal with
    | |- context [smtp (length (w_sent w)) ?mail] => exists mail; destruct (smtp (length (w_sent w)) mail) as [e|]
    end.
    + destruct (is_SMTPException e), (is_Exception e); reflexivity.
    + reflexivity.
  - left. destruct (is_Exception e4); reflexivity.
Qed.

(** What a call of [job] can touch.  In every world, for every activation
    index, whether the call returns or raises, a call of [job] uses the
    transport at most once and leaves the job table, the activations, the
    texts evaluated, the console and the clock as they were: all it adds to
    the world is one use of the transport and lines of the log. *)
Theorem job_call_footprint (frame : nat) (w : World) :
  let run := job frame w in
  (w_sent (snd run) = w_sent w
   \/ exists m, w_sent (snd run) = w_sent w ++ [(m, smtp (length (w_sent w)) m)])
  /\ w_jobs (snd run) = w_jobs w
  /\ w_frames (snd run) = w_frames w
  /\ w_evaluated (snd run) = w_evaluated w
  /\ w_console (snd run) = w_console w
  /\ w_now (snd run) = w_now w
  /\ w_ticks (snd run) = w_ticks w.
Proof.
  intros run. subst run. split.
  - unfold job. destruct (nth_error (w_frames w) frame) as [cells|]; [|left; reflexivity].
    unfold bind at 1, read_cell at 1.
    destruct (f_permission cells) as [p|]; [|left; reflexivity]. simpl.
    unfold bind at 1, read_cell at 1.
    destruct (f_reviewer cells) as [r|]; [|left; reflexivity]. simpl.
    unfold bind at 1, lift at 1.
    destruct (subscript (f_config cells) "smtp_server") as [s|]; [|left; reflexivity].
    unfold bind at 1, lift at 1.
    destruct (subscript (f_config cells) "smtp_port") as [pt|]; [|left; reflexivity].
    unfold bind at 1, lift at 1.
    destruct (subscript (f_config cells) "sender_email") as [se|]; [|left; reflexivity].
    apply create_review_task_sends.
  - pose proof (keeps_job frame w) as H. unfold outside_task in H.
    injection H as H1 H2 H3 H4 H5 H6. repeat split; assumption.
Qed.

Lemma outer_loop_no_reviewers (frame : nat) (config : pydict) (permissions : list json) :
  (let* v := subscript config "reviewers" in py_iter v) = Ok [] ->
  forall w : World,
  exists w',
    mfor permissions
      (fun permission =>
         assign_permission frame permission ;; schedule_permission frame config permission) w
    = (Ok tt, w')
    /\ w_jobs w' = w_jobs w /\ w_evaluated w' = w_evaluated w /\ w_log w' = w_log w
    /\ w_sent w' = w_sent w /\ w_console w' = w_console w
    /\ w_now w' = w_now w /\ w_ticks w' = w_ticks w.
Proof.
  intros Hr. induction permissions as [|p rest IH]; intros w.
  - exists w. repeat split.
  - destruct (IH (snd (assign_permission frame p w))) as (w' & E & H).
    exists w'. split; [|exact H].
    simpl mfor.
    rewrite (bind_ok _ _ w (snd (assign_permission frame p w)) tt); [exact E|].
    rewrite (bind_ok _ _ w (snd (assign_permission frame p w)) tt) by reflexivity.
    unfold schedule_permission.
    rewrite (bind_ok _ _ _ (snd (assign_permission frame p w)) [])
      by (unfold lift; now rewrite Hr).
    reflexivity.
Qed.

Lemma poll_empty_table (rounds : nat) :
  forall w : World,
    w_jobs w = [] ->
    exists w',
      poll rounds w = (Ok StillPolling, w')
      /\ w_jobs w' = [] /\ w_sent w' = w_sent w /\ w_log w' = w_log w
      /\ w_console w' = w_console w /\ w_evaluated w' = w_evaluated w
      /\ w_ticks w' = (w_ticks w + rounds)%nat.
Proof.
  induction rounds as [|n IH]; intros w Hj.
  - exists w. repeat split; auto.
  - destruct (IH (snd (sleep 60 w)) Hj) as (w' & E & J & S & L & C & V & T).
    exists w'. split.
    + simpl poll.
      rewrite (bind_ok _ _ w w tt)
        by (unfold run_pending, runnable_jobs; rewrite Hj; reflexivity).
      rewrite (bind_ok _ _ w (snd (sleep 60 w)) tt) by reflexivity.
      exact E.
    + repeat split; auto. rewrite T. simpl. lia.
Qed.

(** Validation accepts an empty list of reviewers and an empty list of
    permissions.  On such a configuration, whatever the evaluator and the
    transport would do, [main] in scheduling mode evaluates nothing, registers
    nothing, logs the loading alone and is still polling an empty table after
    any number of rounds: it never sends a message and never says why. *)
Theorem main_polls_an_empty_table (rounds : nat) (path : string) (config : pydict)
  (w : World) :
  read_json path = Ok config ->
  validate_config config = Ok tt ->
  reviewers_of config = [] \/ permissions_of config = [] ->
  w_jobs w = [] ->
  let run := main rounds (schedule_args path) w in
  fst run = Polling
  /\ w_jobs (snd run) = []
  /\ w_sent (snd run) = w_sent w
  /\ w_evaluated (snd run) = w_evaluated w
  /\ w_console (snd run) = w_console w
  /\ w_log (snd run) = w_log w ++ [(INFO, [Lit "Configuration loaded from "; Val (JStr path)])]
  /\ w_ticks (snd run) = (w_ticks w + rounds)%nat.
Proof.
  intros Hread Hv Hempty Hj run. subst run.
  pose proof (validate_config_inv _ Hv) as V.
  set (w0 := set_log (w_log w ++ [(INFO, [Lit "Configuration loaded from ";
                                          Val (JStr path)])]) w).
  assert (Hsetup : exists w1,
            schedule_reviews config w0 = (Ok tt, w1)
            /\ w_jobs w1 = w_jobs w0 /\ w_evaluated w1 = w_evaluated w0 /\ w_log w1 = w_log w0
            /\ w_sent w1 = w_sent w0 /\ w_console w1 = w_console w0
            /\ w_now w1 = w_now w0 /\ w_ticks w1 = w_ticks w0).
  { unfold schedule_reviews.
    rewrite (bind_ok _ _ w0 (snd (new_frame config w0)) (length (w_frames w0))) by reflexivity.
    rewrite (bind_ok _ _ _ (snd (new_frame config w0)) (permissions_of config))
      by (unfold lift; now rewrite (permissions_of_validated _ V)).
    destruct Hempty as [Hr | Hp].
    - destruct (outer_loop_no_reviewers (length (w_frames w0)) config (permissions_of config)
                  ltac:(rewrite (reviewers_of_validated _ V); now rewrite Hr)
                  (snd (new_frame config w0))) as (w1 & E & H).
      exists w1. split; [exact E | exact H].
    - rewrite Hp. exists (snd (new_frame config w0)). repeat split. }
  destruct Hsetup as (w1 & E1 & J1 & V1 & L1 & S1 & C1 & _ & T1).
  assert (Hj1 : w_jobs w1 = []) by (rewrite J1; exact Hj).
  destruct (poll_empty_table rounds w1 Hj1) as (w2 & E2 & J2 & S2 & L2 & C2 & V2 & T2).
  assert (Hmain : main_body rounds (schedule_args path) w = (Ok StillPolling, w2)).
  { unfold main_body. simpl args_config. simpl args_test_email.
    rewrite (bind_ok _ _ w _ config (load_config_ok path config w Hread)).
    rewrite (bind_ok _ _ _ _ tt) by (unfold lift; now rewrite Hv).
    cbv iota. fold w0.
    rewrite (bind_ok _ _ _ _ tt E1). exact E2. }
  unfold main. rewrite Hmain. simpl.
  split; [reflexivity|]. split; [exact J2|].
  split; [now rewrite S2, S1|]. split; [now rewrite V2, V1|].
  split; [now rewrite C2, C1|]. split; [now rewrite L2, L1|].
  now rewrite T2, T1.
Qed.

End Calls.

(** A configuration with two permissions and no reviewer passes validation;
    after five rounds [main] is polling and has sent nothing. *)
Lemma main_polls_an_empty_table_witness :
  validate_config lonely_config = Ok tt
  /\ fst (@main (reference_runtime [("lonely.json", Ok lonely_config)]) 5
            (schedule_args "lonely.json") empty_world) = Polling
  /\ w_sent (snd (@main (reference_runtime [("lonely.json", Ok lonely_config)]) 5
                    (schedule_args "lonely.json") empty_world)) = [].
Proof.
  split; [reflexivity|].
  destruct (@main_polls_an_empty_table (reference_runtime [("lonely.json", Ok lonely_config)]) 5
              "lonely.json" lonely_config empty_world eq_refl eq_refl (or_introl eq_refl)
              eq_refl) as (O & _ & S & _).
  split; [exact O | exact S].
Defined.
